(** * TD_Balances: the OAuth token manager of [td_authentication.py]

    A shallow embedding of class [TDAuthentication] and the properties of
    its token-expiry state machine.

    The object ([self]) is a record; the world outside the object (the
    wall clock, the token endpoint, the browser session and the files of
    the working directory) is a second record that every method threads
    along.  A method is a function from the object and the world to an
    outcome (a returned value or a raised exception) together with the
    object and the world as the method leaves them: what a method has
    assigned before it raises stays assigned, as in Python.

    What the methods [print] is not part of the model. *)

From Stdlib Require Import ZArith Lia Ascii String.
From stdpp Require Import gmap strings list.

(** ** Time *)

(** A [datetime] is a number of microseconds since the epoch, a
    [timedelta] a number of microseconds. *)
Definition timedelta_seconds (n : Z) : Z := (1000000 * n)%Z.
Definition timedelta_days (n : Z) : Z := (86400 * timedelta_seconds n)%Z.

(** ** The object *)

(** [td_config]: the keys the class reads, and [account_id] which the
    caller supplies with them. *)
Record Config := {
  client_id : string;
  redirect_uri : string;
  user : string;
  account_id : string
}.

(** [self._tokens] *)
Record Tokens := {
  access_token : option string;
  access_expiration : option Z;
  refresh_token : option string;
  refresh_expiration : option Z
}.

Record TDAuthentication := {
  _td_config : Config;
  _store_refresh_token : bool;
  _tokens : Tokens;
  _is_single_access : bool;
  logged_in_state : bool
}.

Definition ACCESS_DURATION : Z := 1800.
Definition REFRESH_DURATION : Z := 7776000.

Definition set_tokens (t : Tokens) (self : TDAuthentication) : TDAuthentication :=
  {| _td_config := _td_config self;
     _store_refresh_token := _store_refresh_token self;
     _tokens := t;
     _is_single_access := _is_single_access self;
     logged_in_state := logged_in_state self |}.

Definition set_logged_in_state (b : bool) (self : TDAuthentication) : TDAuthentication :=
  {| _td_config := _td_config self;
     _store_refresh_token := _store_refresh_token self;
     _tokens := _tokens self;
     _is_single_access := _is_single_access self;
     logged_in_state := b |}.

Definition set_access (tok : string) (exp : Z) (t : Tokens) : Tokens :=
  {| access_token := Some tok;
     access_expiration := Some exp;
     refresh_token := refresh_token t;
     refresh_expiration := refresh_expiration t |}.

Definition set_refresh (tok : option string) (exp : option Z) (t : Tokens) : Tokens :=
  {| access_token := access_token t;
     access_expiration := access_expiration t;
     refresh_token := tok;
     refresh_expiration := exp |}.

(** ** The world *)

(** A request of [requests.post(url, headers, data, timeout)]; in the form
    data a key may be bound to [None]. *)
Record Request := {
  url : string;
  req_headers : list (string * string);
  data : list (string * option string);
  timeout : Z
}.

(** The reply: its status code and its JSON body, an object.  The members
    of the body are taken to be strings, as the tokens of the endpoint
    are: a member that is [null] or of another type is outside this
    model. *)
Record Response := {
  status_code : Z;
  json : gmap string string
}.

(** A file of the working directory: a pickled two-element list (what
    [_update_refresh_token] dumps), or anything else. *)
Inductive file :=
  | Pickle (tok : option string) (exp : option Z)
  | Blob.

(** The world.  [clock] gives the successive readings of
    [datetime.now()], [ticks] counts the readings taken so far.
    [token_endpoint] answers the n-th request posted, [sent] lists the
    requests posted so far, latest first, and [received] the replies to
    them, latest first, each with the number of readings of the clock
    taken before it arrived.  [webdriver] is the code the n-th browser
    session ends with, [visited] the authorization URLs the sessions were
    opened on.  [fs] maps a path to its file, [dumped] lists the files
    written by [pickle.dump], latest first. *)
Record World := {
  clock : nat → Z;
  ticks : nat;
  token_endpoint : nat → Request → Response;
  sent : list Request;
  received : list (Response * nat);
  webdriver : nat → string → string;
  visited : list string;
  fs : gmap string file;
  dumped : list (string * file)
}.

(** ** Methods as state transformers *)

Inductive exn :=
  | TypeError
  | KeyError
  | FileNotFoundError
  | UnpicklingError
  | ValueError.

Inductive outcome (A : Type) :=
  | Return (a : A)
  | Raise (e : exn).
Arguments Return {A} a.
Arguments Raise {A} e.

Record Run (A : Type) := MkRun {
  result : outcome A;
  obj : TDAuthentication;
  env : World
}.
Arguments MkRun {A} _ _ _.
Arguments result {A} _.
Arguments obj {A} _.
Arguments env {A} _.

Definition M (A : Type) : Type := TDAuthentication → World → Run A.

Definition ret {A} (a : A) : M A := fun self w => MkRun (Return a) self w.
Definition raise {A} (e : exn) : M A := fun self w => MkRun (Raise e) self w.
Definition bind {A B} (m : M A) (k : A → M B) : M B :=
  fun self w =>
    let r := m self w in
    match result r with
    | Return a => k a (obj r) (env r)
    | Raise e => MkRun (Raise e) (obj r) (env r)
    end.

#[global] Instance M_ret : MRet M := @ret.
#[global] Instance M_bind : MBind M := fun A B k m => bind m k.

Definition get_self : M TDAuthentication := fun self w => MkRun (Return self) self w.
Definition modify_self (f : TDAuthentication → TDAuthentication) : M unit :=
  fun self w => MkRun (Return tt) (f self) w.

(** *** Primitives of the world *)

(** [datetime.now()]: the reading is [clock w (ticks w)], and the world
    moves on to the next one. *)
Definition tick (w : World) : World :=
  {| clock := clock w; ticks := S (ticks w);
     token_endpoint := token_endpoint w;
     sent := sent w; received := received w;
     webdriver := webdriver w; visited := visited w;
     fs := fs w; dumped := dumped w |}.

Definition now : M Z := fun self w =>
  MkRun (Return (clock w (ticks w))) self (tick w).

(** [requests.post(...)]: the endpoint always answers; a timeout or a
    connection error of the network is outside this model. *)
Definition reply_to (rq : Request) (w : World) : Response :=
  token_endpoint w (length (sent w)) rq.

Definition posted (rq : Request) (w : World) : World :=
  {| clock := clock w; ticks := ticks w;
     token_endpoint := token_endpoint w;
     sent := rq :: sent w; received := (reply_to rq w, ticks w) :: received w;
     webdriver := webdriver w; visited := visited w;
     fs := fs w; dumped := dumped w |}.

Definition requests_post (rq : Request) : M Response := fun self w =>
  MkRun (Return (reply_to rq w)) self (posted rq w).

(** A browser session opened on [auth_url] and polled until the redirect
    carries a code: the session is the world's, and the model takes the
    code it ends with. *)
Definition webdriver_session (auth_url : string) : M string := fun self w =>
  MkRun (Return (webdriver w (length (visited w)) auth_url)) self
    {| clock := clock w; ticks := ticks w;
       token_endpoint := token_endpoint w;
       sent := sent w; received := received w;
       webdriver := webdriver w; visited := auth_url :: visited w;
       fs := fs w; dumped := dumped w |}.

Definition with_fs (f : gmap string file) (d : list (string * file)) (w : World) : World :=
  {| clock := clock w; ticks := ticks w;
     token_endpoint := token_endpoint w;
     sent := sent w; received := received w;
     webdriver := webdriver w; visited := visited w;
     fs := f; dumped := d |}.

(** Paths are relative to the working directory or absolute.  A leading
    [./], with the slashes that follow it, names the working directory
    itself, so [normpath] drops it; the rest of the path is the key of
    the file.  A path that starts at the root is its own key: the working
    directory is taken not to be the root, so that a relative path and an
    absolute path spelled alike but for the first slash name two files. *)
Fixpoint normpath_from (slashes : bool) (p : string) : string :=
  match p with
  | String c r =>
      if slashes && bool_decide (c = "/"%char) then normpath_from true r
      else match r with
           | String d r' =>
               if bool_decide (c = "."%char) && bool_decide (d = "/"%char)
               then normpath_from true r'
               else p
           | EmptyString => p
           end
  | EmptyString => p
  end.
Definition normpath (p : string) : string := normpath_from false p.

(** A path that does not start at the root. *)
Definition is_relative (p : string) : bool :=
  match p with
  | String c _ => negb (bool_decide (c = "/"%char))
  | EmptyString => true
  end.

(** [os.path.isfile] *)
Definition os_path_isfile (p : string) : M bool := fun self w =>
  MkRun (Return (bool_decide (is_Some (fs w !! normpath p)))) self w.

(** [os.remove] *)
Definition os_remove (p : string) : M unit := fun self w =>
  match fs w !! normpath p with
  | Some _ => MkRun (Return tt) self (with_fs (delete (normpath p) (fs w)) (dumped w) w)
  | None => MkRun (Raise FileNotFoundError) self w
  end.

(** [with open(p, 'rb') as file: pickle.load(file)], unpacked into two
    targets *)
Definition pickle_load (p : string) : M (option string * option Z) := fun self w =>
  match fs w !! normpath p with
  | Some (Pickle tok exp) => MkRun (Return (tok, exp)) self w
  | Some Blob => MkRun (Raise UnpicklingError) self w
  | None => MkRun (Raise FileNotFoundError) self w
  end.

(** [with open(p, 'wb') as file: pickle.dump([tok, exp], file)] *)
Definition pickle_dump (p : string) (tok : option string) (exp : option Z) : M unit :=
  fun self w =>
    MkRun (Return tt) self
      (with_fs (<[normpath p := Pickle tok exp]> (fs w))
               ((normpath p, Pickle tok exp) :: dumped w) w).

(** ** The library functions of [urllib.parse] the class calls

    [urlparse], [urljoin] and [quote] after CPython 3.8's [urllib/parse.py],
    on strings of one-byte characters.  [urlparse] and [urljoin] return
    [None] where the library raises [ValueError] ("Invalid IPv6 URL", on a
    host with one square bracket and not the other).  The parse cache is
    not modelled; the check of non-ASCII hosts never raises on one-byte
    characters. *)
Module up.

Definition eqc (a b : ascii) : bool := bool_decide (a = b).

(** [c in s] *)
Fixpoint contains (c : ascii) (s : string) : bool :=
  match s with
  | EmptyString => false
  | String d r => eqc c d || contains c r
  end.

(** [s.split(c, 1)] when [c] occurs in [s], that is [s.partition(c)]
    without the separator; [(s, '')] when it does not. *)
Fixpoint cut (c : ascii) (s : string) : string * string :=
  match s with
  | EmptyString => (EmptyString, EmptyString)
  | String d r =>
      if eqc c d then (EmptyString, r)
      else let '(a, b) := cut c r in (String d a, b)
  end.

(** [s.split(c)] *)
Fixpoint split (c : ascii) (s : string) : list string :=
  match s with
  | EmptyString => [EmptyString]
  | String d r =>
      if eqc c d then EmptyString :: split c r
      else match split c r with
           | x :: l => String d x :: l
           | [] => [String d EmptyString]
           end
  end.

(** [sep.join(l)] *)
Fixpoint join (sep : string) (l : list string) : string :=
  match l with
  | [] => EmptyString
  | [x] => x
  | x :: l' => x +:+ sep +:+ join sep l'
  end.

(** [s.lstrip(c)] for a one-character [c] *)
Fixpoint lstrip (c : ascii) (s : string) : string :=
  match s with
  | String d r => if eqc c d then lstrip c r else s
  | EmptyString => s
  end.

Definition is_upper (c : ascii) : bool :=
  let n := nat_of_ascii c in (65 <=? n)%nat && (n <=? 90)%nat.
Definition is_lower (c : ascii) : bool :=
  let n := nat_of_ascii c in (97 <=? n)%nat && (n <=? 122)%nat.
Definition is_digit (c : ascii) : bool :=
  let n := nat_of_ascii c in (48 <=? n)%nat && (n <=? 57)%nat.

(** [s.lower()] *)
Definition lower_char (c : ascii) : ascii :=
  if is_upper c then ascii_of_nat (nat_of_ascii c + 32) else c.
Fixpoint lower (s : string) : string :=
  match s with
  | EmptyString => EmptyString
  | String c r => String (lower_char c) (lower r)
  end.

Fixpoint all_chars (p : ascii → bool) (s : string) : bool :=
  match s with
  | EmptyString => true
  | String c r => p c && all_chars p r
  end.

Definition is_empty (s : string) : bool :=
  match s with EmptyString => true | _ => false end.

Definition scheme_char (c : ascii) : bool :=
  is_lower c || is_upper c || is_digit c || contains c "+-.".

Definition uses_relative : list string :=
  [""; "ftp"; "http"; "gopher"; "nntp"; "imap"; "wais"; "file"; "https";
   "shttp"; "mms"; "prospero"; "rtsp"; "rtspu"; "sftp"; "svn"; "svn+ssh";
   "ws"; "wss"].
Definition uses_netloc : list string :=
  [""; "ftp"; "http"; "gopher"; "nntp"; "telnet"; "imap"; "wais"; "file";
   "mms"; "https"; "shttp"; "snews"; "prospero"; "rtsp"; "rtspu"; "rsync";
   "svn"; "svn+ssh"; "sftp"; "nfs"; "git"; "git+ssh"; "ws"; "wss"].
Definition uses_params : list string :=
  [""; "ftp"; "hdl"; "prospero"; "http"; "imap"; "https"; "shttp"; "rtsp";
   "rtspu"; "sip"; "sips"; "mms"; "sftp"; "tel"].

Definition mem (s : string) (l : list string) : bool := bool_decide (s ∈ l).

Record ParseResult := {
  scheme : string;
  netloc : string;
  path : string;
  params : string;
  query : string;
  fragment : string
}.

(** The scheme of [url] and what follows its colon, when [url] starts
    with one. *)
Definition split_scheme (url : string) : option (string * string) :=
  if contains ":" url then
    let '(pre, rest) := cut ":" url in
    if is_empty pre then None
    else if bool_decide (pre = "http") then Some ("http", rest)
    else if all_chars scheme_char pre then
      if is_empty rest || negb (all_chars is_digit rest)
      then Some (lower pre, rest) else None
    else None
  else None.

(** [_splitnetloc(url, 2)] on a [url] that starts with two slashes *)
Fixpoint until_delim (s : string) : string * string :=
  match s with
  | EmptyString => (EmptyString, EmptyString)
  | String c r =>
      if contains c "/?#" then (EmptyString, s)
      else let '(a, b) := until_delim r in (String c a, b)
  end.

Definition split_netloc (url : string) : string * string :=
  match url with
  | String "/" (String "/" r) => until_delim r
  | _ => (EmptyString, url)
  end.

(** [_splitparams] *)
Definition splitparams (url : string) : string * string :=
  if contains "/" url then
    let segs := split "/" url in
    let lst := List.last segs EmptyString in
    if contains ";" lst then
      let '(a, b) := cut ";" lst in
      (join "/" (removelast segs ++ [a]), b)
    else (url, EmptyString)
  else cut ";" url.

(** The host that [urlsplit] refuses: one square bracket without the
    other. *)
Definition invalid_netloc (nl : string) : bool :=
  (contains "[" nl && negb (contains "]" nl))
  || (contains "]" nl && negb (contains "[" nl)).

(** [urlparse(url, scheme)]; [None] is the [ValueError], raised once the
    host is split off. *)
Definition urlparse (url : string) (default : string) : option ParseResult :=
  let '(sch, url1) :=
    match split_scheme url with
    | Some (s, rest) => (s, rest)
    | None => (default, url)
    end in
  let '(nl, url2) := split_netloc url1 in
  if invalid_netloc nl then None
  else
    let '(url3, frag) := cut "#" url2 in
    let '(url4, qry) := cut "?" url3 in
    let '(pth, prm) :=
      if mem sch uses_params && contains ";" url4 then splitparams url4
      else (url4, EmptyString) in
    Some {| scheme := sch; netloc := nl; path := pth; params := prm;
            query := qry; fragment := frag |}.

(** [urlunparse] *)
Definition starts_with_slash (s : string) : bool :=
  match s with String "/" _ => true | _ => false end.
Definition starts_with_two_slashes (s : string) : bool :=
  match s with String "/" (String "/" _) => true | _ => false end.

Definition urlunparse (r : ParseResult) : string :=
  let u0 := if is_empty (params r) then path r else path r +:+ ";" +:+ params r in
  let u1 :=
    if negb (is_empty (netloc r))
       || (negb (is_empty (scheme r)) && mem (scheme r) uses_netloc
           && negb (starts_with_two_slashes u0))
    then "//" +:+ netloc r +:+
         (if negb (is_empty u0) && negb (starts_with_slash u0) then "/" +:+ u0 else u0)
    else u0 in
  let u2 := if is_empty (scheme r) then u1 else scheme r +:+ ":" +:+ u1 in
  let u3 := if is_empty (query r) then u2 else u2 +:+ "?" +:+ query r in
  if is_empty (fragment r) then u3 else u3 +:+ "#" +:+ fragment r.

(** [segments[1:-1] = filter(None, segments[1:-1])] *)
Definition drop_empty_middle (segments : list string) : list string :=
  match segments with
  | x :: (_ :: _) as rest =>
      x :: filter (λ s, s ≠ EmptyString) (removelast rest)
        ++ [List.last rest EmptyString]
  | _ => segments
  end.

(** The loop over the segments; [resolved] is [resolved_path], its last
    element first. *)
Fixpoint resolve (segments resolved : list string) : list string :=
  match segments with
  | [] => resolved
  | seg :: segs =>
      if bool_decide (seg = "..") then resolve segs (tail resolved)
      else if bool_decide (seg = ".") then resolve segs resolved
      else resolve segs (seg :: resolved)
  end.

(** [urljoin(base, url)], once [base] is parsed as [b] and [url] as
    [u] *)
Definition join_parsed (url : string) (b u : ParseResult) : string :=
  if negb (bool_decide (scheme u = scheme b)) || negb (mem (scheme u) uses_relative)
  then url
  else if mem (scheme u) uses_netloc && negb (is_empty (netloc u))
  then urlunparse u
  else
    let nl := if mem (scheme u) uses_netloc then netloc b else netloc u in
    if is_empty (path u) && is_empty (params u) then
      urlunparse {| scheme := scheme u; netloc := nl; path := path b;
                    params := params b;
                    query := if is_empty (query u) then query b else query u;
                    fragment := fragment u |}
    else
      let base_parts :=
        let parts := split "/" (path b) in
        if is_empty (List.last parts EmptyString) then parts else removelast parts in
      let segments :=
        if starts_with_slash (path u) then split "/" (path u)
        else drop_empty_middle (base_parts ++ split "/" (path u)) in
      let resolved :=
        let r := resolve segments [] in
        let lst := List.last segments EmptyString in
        if bool_decide (lst = ".") || bool_decide (lst = "..")
        then EmptyString :: r else r in
      let joined := join "/" (rev resolved) in
      urlunparse {| scheme := scheme u; netloc := nl;
                    path := if is_empty joined then "/" else joined;
                    params := params u; query := query u;
                    fragment := fragment u |}.

(** [urljoin(base, url)]; [None] is the [ValueError] of [urlparse], on
    the base or on the URL. *)
Definition urljoin (base url : string) : option string :=
  if is_empty base then Some url
  else if is_empty url then Some base
  else
    match urlparse base "" with
    | None => None
    | Some b =>
        match urlparse url (scheme b) with
        | None => None
        | Some u => Some (join_parsed url b u)
        end
    end.

(** [quote(s)], with the default safe character [/] *)
Definition hex_digit (n : nat) : ascii :=
  if (n <? 10)%nat then ascii_of_nat (48 + n) else ascii_of_nat (55 + n).
Definition always_safe (c : ascii) : bool :=
  is_lower c || is_upper c || is_digit c || contains c "_.-~".
Fixpoint quote (s : string) : string :=
  match s with
  | EmptyString => EmptyString
  | String c r =>
      if always_safe c || eqc c "/" then String c (quote r)
      else
        let n := nat_of_ascii c in
        String "%" (String (hex_digit (n / 16)) (String (hex_digit (n mod 16)) (quote r)))
  end.

End up.

(** ** The methods of [TDAuthentication] *)

Definition token_url : string := "https://api.tdameritrade.com/v1/oauth2/token".
Definition form_headers : list (string * string) :=
  [("Content-Type", "application/x-www-form-urlencoded")].

(** [f'{self._td_config["user"]}refreshtoken.pickle'], the path the record
    is opened on, and the same with [./] before it, the path that
    [_initialize_authentication] looks up and removes. *)
Definition pickle_name (c : Config) : string := user c +:+ "refreshtoken.pickle".
Definition dot_pickle_name (c : Config) : string := "./" +:+ pickle_name c.

(** [token_response[key]] *)
Definition subscript (token_response : gmap string string) (key : string) : M string :=
  match token_response !! key with
  | Some v => mret v
  | None => raise KeyError
  end.

Definition _get_access_code : M (option string) :=
  self ← get_self;
  let client_code := client_id (_td_config self) +:+ "@AMER.OAUTHAP" in
  let auth_url :=
    "https://auth.tdameritrade.com/auth?response_type=code&redirect_uri="
    +:+ up.quote (redirect_uri (_td_config self))
    +:+ "&client_id=" +:+ up.quote client_code in
  chromedriver ← os_path_isfile "chromedriver.exe";
  if chromedriver : bool then
    access_code ← webdriver_session auth_url;
    mret (Some access_code)
  else mret None.

Definition _update_refresh_token (token_response : gmap string string) : M unit :=
  tok ← subscript token_response "refresh_token";
  modify_self (λ self,
    set_tokens (set_refresh (Some tok) (refresh_expiration (_tokens self)) (_tokens self)) self);;
  t ← now;
  modify_self (λ self,
    set_tokens (set_refresh (refresh_token (_tokens self))
                  (Some (t + timedelta_seconds REFRESH_DURATION)%Z) (_tokens self)) self);;
  self ← get_self;
  if _store_refresh_token self then
    pickle_dump (pickle_name (_td_config self))
      (refresh_token (_tokens self)) (refresh_expiration (_tokens self))
  else mret tt.

Definition _update_access_token (token_response : gmap string string) : M unit :=
  tok ← subscript token_response "access_token";
  t ← now;
  modify_self (λ self,
    set_tokens (set_access tok (t + timedelta_seconds ACCESS_DURATION)%Z (_tokens self)) self);;
  modify_self (set_logged_in_state true).

Definition access_code_request (access_type access_code : option string) (c : Config) : Request :=
  {| url := token_url;
     req_headers := form_headers;
     data := [("grant_type", Some "authorization_code");
              ("access_type", access_type);
              ("code", access_code);
              ("client_id", Some (client_id c));
              ("redirect_uri", Some (redirect_uri c))];
     timeout := 5 |}.

(** The loop [for _ in range(max_retries)] of [_get_access_token], with
    what follows it when it runs out. *)
Fixpoint _get_access_token_loop (max_retries : nat) (access_type : option string) : M unit :=
  match max_retries with
  | O => mret tt
  | S retries =>
      access_code ← _get_access_code;
      self ← get_self;
      auth_reply ← requests_post
        (access_code_request access_type access_code (_td_config self));
      if bool_decide (status_code auth_reply = 200%Z) then
        (if negb (_is_single_access self)
         then _update_refresh_token (json auth_reply) else mret tt);;
        _update_access_token (json auth_reply)
      else
        modify_self (set_logged_in_state false);;
        _get_access_token_loop retries access_type
  end.

Definition _get_access_token (max_retries : nat) : M unit :=
  self ← get_self;
  let access_type := if negb (_is_single_access self) then Some "offline" else None in
  _get_access_token_loop max_retries access_type.

(** The default of [max_retries], which every call of the class takes. *)
Definition max_retries_default : nat := 3.

Definition refresh_request (tok : option string) (c : Config) : Request :=
  {| url := token_url;
     req_headers := form_headers;
     data := [("grant_type", Some "refresh_token");
              ("refresh_token", tok);
              ("client_id", Some (client_id c))];
     timeout := 5 |}.

Definition _request_refresh_token : M Response :=
  self ← get_self;
  requests_post (refresh_request (refresh_token (_tokens self)) (_td_config self)).

(** [expiration - delta < datetime.now()]: the subtraction comes first and
    raises on [None], before the clock is read. *)
Definition expires_within (expiration : option Z) (delta : Z) : M bool :=
  match expiration with
  | None => raise TypeError
  | Some e => t ← now; mret (bool_decide (e - delta < t)%Z)
  end.

Definition _refresh_access_token : M unit :=
  self ← get_self;
  almost_expired ← expires_within (refresh_expiration (_tokens self)) (timedelta_days 1);
  if almost_expired : bool then _get_access_token max_retries_default
  else
    refresh_response ← _request_refresh_token;
    if negb (bool_decide (status_code refresh_response = 200%Z)) then
      modify_self (set_logged_in_state false);;
      _get_access_token max_retries_default
    else _update_access_token (json refresh_response).

Definition _authenticate : M unit :=
  self ← get_self;
  single_expired ←
    (if _is_single_access self
     then expires_within (access_expiration (_tokens self)) (timedelta_seconds 30)
     else mret false);
  if single_expired : bool then _get_access_token max_retries_default
  else
    expired ← expires_within (access_expiration (_tokens self)) (timedelta_seconds 5);
    if expired : bool then _refresh_access_token else mret tt.

Definition _initialize_authentication : M unit :=
  self ← get_self;
  stored ← os_path_isfile (dot_pickle_name (_td_config self));
  if stored : bool then
    if negb (_store_refresh_token self) || _is_single_access self then
      os_remove (dot_pickle_name (_td_config self));;
      _get_access_token max_retries_default
    else
      '(tok, exp) ← pickle_load (pickle_name (_td_config self));
      modify_self (λ self, set_tokens (set_refresh tok exp (_tokens self)) self);;
      _refresh_access_token
  else _get_access_token max_retries_default.

(** [__init__]: the fresh object, then the initialization; the closing
    [print] reads the clock once more. *)
Definition fresh (td_config : Config) (store_refresh_token is_single_access : bool)
  : TDAuthentication :=
  {| _td_config := td_config;
     _store_refresh_token := store_refresh_token;
     _tokens := {| access_token := None; access_expiration := None;
                   refresh_token := None; refresh_expiration := None |};
     _is_single_access := is_single_access;
     logged_in_state := false |}.

Definition __init__ (td_config : Config) (store_refresh_token is_single_access : bool)
    (w : World) : Run unit :=
  (_initialize_authentication;; now;; mret tt)
    (fresh td_config store_refresh_token is_single_access) w.

(** [str(b)] of a [bool] *)
Definition str_bool (b : bool) : string := if b then "True" else "False".

(** [__repr__]: the two sides of [<] are evaluated, the clock is read,
    and then the comparison raises on [None]. *)
Definition __repr__ : M string :=
  self ← get_self;
  t ← now;
  match access_expiration (_tokens self) with
  | None => raise TypeError
  | Some e =>
      (if bool_decide (e < t)%Z then modify_self (set_logged_in_state false) else mret tt);;
      self ← get_self;
      mret (str_bool (logged_in_state self))
  end.

(** [f'{v}'] of a string or [None] *)
Definition format_value (v : option string) : string :=
  match v with Some s => s | None => "None" end.

Definition api_base : string := "https://api.tdameritrade.com/v1/".

(** A call of [urllib.parse]: the [ValueError] of the library is raised
    to the caller. *)
Definition up_call {A} (r : option A) : M A :=
  match r with
  | Some a => mret a
  | None => raise ValueError
  end.

(** [headers(endpoint, mode)]; an absent [mode] is [None].  The result is
    the pair the method returns: [(None, None)] or a URL with its
    headers. *)
Definition headers (endpoint : string) (mode : option string)
  : M (option string * option (gmap string string)) :=
  _authenticate;;
  self ← get_self;
  if logged_in_state self then
    parsed ← up_call (up.urlparse endpoint "");
    url ← (if up.mem (up.scheme parsed) ["http"; "https"] then mret endpoint
           else up_call (up.urljoin api_base (up.lstrip "/" endpoint)));
    let merged_headers : gmap string string :=
      {[ "Authorization" := "Bearer " +:+ format_value (access_token (_tokens self)) ]} in
    let merged_headers :=
      if bool_decide (mode = Some "application/json")
      then <["Content-type" := "application/json"]> merged_headers
      else merged_headers in
    mret (Some url, Some merged_headers)
  else mret (None, None).

(** The URL of [headers], lines 323 to 327 on their own: [None] where
    [urlparse] or [urljoin] raises. *)
Definition resolve_endpoint (endpoint : string) : option string :=
  match up.urlparse endpoint "" with
  | None => None
  | Some parsed =>
      if up.mem (up.scheme parsed) ["http"; "https"] then Some endpoint
      else up.urljoin api_base (up.lstrip "/" endpoint)
  end.

(** The mapping of [headers], lines 330 to 334 on their own. *)
Definition merged_headers_of (tok : option string) (mode : option string)
  : gmap string string :=
  if bool_decide (mode = Some "application/json")
  then <["Content-type" := "application/json"]>
         {[ "Authorization" := "Bearer " +:+ format_value tok ]}
  else {[ "Authorization" := "Bearer " +:+ format_value tok ]}.

(** The value of the [access_token] property: the token or [False]. *)
Inductive token_or_false :=
  | Token (tok : option string)
  | PyFalse.

(** The [access_token] property *)
Definition access_token_property : M token_or_false :=
  _authenticate;;
  self ← get_self;
  if logged_in_state self then mret (Token (access_token (_tokens self)))
  else mret PyFalse.

(** ** What a request asks for *)

Fixpoint form_get (key : string) (d : list (string * option string)) : option string :=
  match d with
  | [] => None
  | (k, v) :: d' => if bool_decide (k = key) then v else form_get key d'
  end.

Definition grant_type (rq : Request) : option string := form_get "grant_type" (data rq).

(** ** Sample worlds, for the examples *)

Definition sample_config : Config :=
  {| client_id := "CID"; redirect_uri := "http://localhost";
     user := "bob"; account_id := "1" |}.

(** A configuration whose [user] is a directory, given from the root. *)
Definition rooted_config : Config :=
  {| client_id := "CID"; redirect_uri := "http://localhost";
     user := "/home/bob/"; account_id := "1" |}.

Definition reply (code : Z) (body : list (string * string)) : Response :=
  {| status_code := code; json := list_to_map body |}.

Definition world_of (clk : nat → Z) (endpoint : nat → Request → Response)
    (files : gmap string file) : World :=
  {| clock := clk; ticks := 0; token_endpoint := endpoint;
     sent := []; received := [];
     webdriver := λ _ _, "code"; visited := []; fs := files; dumped := [] |}.

(** A clock that reads one second more at each reading. *)
Definition seconds_clock (n : nat) : Z := timedelta_seconds (Z.of_nat n).

(** A clock that runs the same way for [n0] readings, then is [hours]
    hours ahead. *)
Definition late_clock (n0 : nat) (hours : Z) (n : nat) : Z :=
  if (n <? n0)%nat then seconds_clock n
  else (timedelta_seconds (3600 * hours) + seconds_clock n)%Z.

(** A clock that gives the listed readings, in seconds. *)
Definition clock_of (readings : list Z) (n : nat) : Z :=
  timedelta_seconds (default 0%Z (readings !! n)).

(** An endpoint that is down, one that grants what it is asked, and one
    that grants the first [n0] requests only. *)
Definition down : nat → Request → Response := λ _ _, reply 500 [].
Definition granting : nat → Request → Response :=
  λ _ _, reply 200 [("access_token", "A"); ("refresh_token", "R")].
Definition granting_first (n0 : nat) : nat → Request → Response :=
  λ n rq, if (n <? n0)%nat then granting n rq else down n rq.

(** A logged-in manager of [sample_config], with the expirations given
    in seconds. *)
Definition sample_manager (single : bool) (access_exp refresh_exp : Z) : TDAuthentication :=
  {| _td_config := sample_config;
     _store_refresh_token := negb single;
     _tokens :=
       {| access_token := Some "A";
          access_expiration := Some (timedelta_seconds access_exp);
          refresh_token := if single then None else Some "R";
          refresh_expiration :=
            if single then None else Some (timedelta_seconds refresh_exp) |};
     _is_single_access := single;
     logged_in_state := true |}.

(** ** The object and the world after a step *)

Definition auth_url (c : Config) : string :=
  "https://auth.tdameritrade.com/auth?response_type=code&redirect_uri="
  +:+ up.quote (redirect_uri c)
  +:+ "&client_id=" +:+ up.quote (client_id c +:+ "@AMER.OAUTHAP").

Definition browsed (u : string) (w : World) : World :=
  {| clock := clock w; ticks := ticks w;
     token_endpoint := token_endpoint w;
     sent := sent w; received := received w;
     webdriver := webdriver w; visited := u :: visited w;
     fs := fs w; dumped := dumped w |}.

Definition with_access (tok : string) (t : Z) (self : TDAuthentication) : TDAuthentication :=
  set_logged_in_state true
    (set_tokens (set_access tok (t + timedelta_seconds ACCESS_DURATION)%Z (_tokens self)) self).

Definition with_refresh (tok : string) (t : Z) (self : TDAuthentication) : TDAuthentication :=
  set_tokens
    {| access_token := access_token (_tokens self);
       access_expiration := access_expiration (_tokens self);
       refresh_token := Some tok;
       refresh_expiration := Some (t + timedelta_seconds REFRESH_DURATION)%Z |} self.

Definition dump_world (c : Config) (tok : string) (t : Z) (w : World) : World :=
  with_fs
    (<[normpath (pickle_name c) :=
         Pickle (Some tok) (Some (t + timedelta_seconds REFRESH_DURATION)%Z)]> (fs w))
    ((normpath (pickle_name c),
      Pickle (Some tok) (Some (t + timedelta_seconds REFRESH_DURATION)%Z)) :: dumped w)
    (tick w).


(** ** The public interface and the states it reaches *)

Inductive method_call :=
  | CallHeaders (endpoint : string) (mode : option string)
  | CallAccessToken
  | CallRepr.

(** The object and the world after a call, whether it returns or raises. *)
Definition after_call (c : method_call) (self : TDAuthentication) (w : World)
  : TDAuthentication * World :=
  match c with
  | CallHeaders endpoint mode =>
      (obj (headers endpoint mode self w), env (headers endpoint mode self w))
  | CallAccessToken =>
      (obj (access_token_property self w), env (access_token_property self w))
  | CallRepr => (obj (__repr__ self w), env (__repr__ self w))
  end.

(** The states of a manager built in the world [w0]: the constructor has
    returned, then the caller calls the public methods in any order, and
    between two calls the files of the directory may change. *)
Inductive reachable (td_config : Config) (store single : bool) (w0 : World)
  : TDAuthentication → World → Prop :=
  | reach_init :
      result (__init__ td_config store single w0) = Return tt →
      reachable td_config store single w0
        (obj (__init__ td_config store single w0))
        (env (__init__ td_config store single w0))
  | reach_call c self w :
      reachable td_config store single w0 self w →
      reachable td_config store single w0
        (after_call c self w).1 (after_call c self w).2
  | reach_files f self w :
      reachable td_config store single w0 self w →
      reachable td_config store single w0 self (with_fs f (dumped w) w).





(** The requests posted between the world [w] and the world [w']. *)
Definition posted_since (w w' : World) (new : list Request) : Prop :=
  sent w' = new ++ sent w.

Definition is_code_grant (rq : Request) : Prop :=
  grant_type rq = Some "authorization_code".

Definition is_refresh_grant (rq : Request) : Prop :=
  grant_type rq = Some "refresh_token".

(** The value a run returns, [d] when it raises. *)
Definition returned {A} (d : A) (r : Run A) : A :=
  match result r with Return a => a | Raise _ => d end.

(** The request of one turn of the loop of [_get_access_token], from the
    code the browser session gives. *)
Definition turn_request (access_type : option string) (self : TDAuthentication) (w : World)
  : Request :=
  access_code_request access_type (returned None (_get_access_code self w)) (_td_config self).

(** The world after the request of one turn is posted. *)
Definition turn_world (access_type : option string) (self : TDAuthentication) (w : World)
  : World :=
  posted (turn_request access_type self w) (env (_get_access_code self w)).

(** Every reply to the next [n] requests is a failure. *)
Definition endpoint_fails (n : nat) (w : World) : Prop :=
  ∀ k rq, length (sent w) ≤ k < length (sent w) + n →
          status_code (token_endpoint w k rq) ≠ 200%Z.

(** The URL of [headers] in the words of the specification: the endpoint
    itself when its scheme is http or https, otherwise the join of the
    base with the endpoint as it is given ([None] where the library
    raises). *)
Definition url_as_specified (endpoint : string) : option string :=
  match up.urlparse endpoint "" with
  | None => None
  | Some parsed =>
      if up.mem (up.scheme parsed) ["http"; "https"] then Some endpoint
      else up.urljoin api_base endpoint
  end.

(** In single-access mode: no refresh token in memory, no file written
    since the world [w0], and since then authorization-code grants only. *)
Definition single_access_kept (w0 : World) (self : TDAuthentication) (w : World) : Prop :=
  _is_single_access self = true ∧
  refresh_token (_tokens self) = None ∧
  refresh_expiration (_tokens self) = None ∧
  dumped w = dumped w0 ∧
  ∃ new, posted_since w0 w new ∧ Forall is_code_grant new.

(** ** Further vocabulary for the properties of the methods *)

(** A request as the class builds them: posted to the token endpoint,
    form-encoded, with the timeout of five seconds, in the name of the
    client; an authorization-code grant carries the redirect URI and asks
    for offline access exactly when the manager is not single-access. *)
Definition well_formed_request (c : Config) (single : bool) (rq : Request) : Prop :=
  url rq = token_url ∧ req_headers rq = form_headers ∧ timeout rq = 5%Z ∧
  form_get "client_id" (data rq) = Some (client_id c) ∧
  (is_refresh_grant rq ∨
   (is_code_grant rq ∧
    form_get "redirect_uri" (data rq) = Some (redirect_uri c) ∧
    form_get "access_type" (data rq) = if single then None else Some "offline")).

(** The access token of [self'] was issued between the worlds [w] and
    [w']: the manager is logged in and the expiration is a reading taken
    in between plus the duration. *)
Definition renewed_during (w : World) (self' : TDAuthentication) (w' : World) : Prop :=
  logged_in_state self' = true ∧
  ∃ k, ticks w ≤ k < ticks w' ∧
       access_expiration (_tokens self')
         = Some (clock w k + timedelta_seconds ACCESS_DURATION)%Z.

(** What the manager has written since the world [w0]: only the record of
    the user, a pickled pair whose second element is an expiration, and
    the latest one is the refresh token state in memory. *)
Definition record_of (c : Config) (entry : string * file) : Prop :=
  entry.1 = normpath (pickle_name c) ∧
  ∃ tok exp, entry.2 = Pickle tok (Some exp).

Definition latest_record_in_memory (self : TDAuthentication) (new : list (string * file))
  : Prop :=
  match new with
  | [] => True
  | entry :: _ =>
      entry.2 = Pickle (refresh_token (_tokens self)) (refresh_expiration (_tokens self))
  end.

(** The requests of one call, between the worlds [w] and [w']: at most
    one refresh grant, posted first, then at most three authorization-code
    grants, all of them well formed. *)
Definition call_requests (c : Config) (single : bool) (w w' : World) : Prop :=
  ∃ codes refreshes,
    sent w' = codes ++ refreshes ++ sent w ∧
    length codes ≤ 3 ∧ length refreshes ≤ 1 ∧
    Forall (λ rq, is_code_grant rq ∧ well_formed_request c single rq) codes ∧
    Forall (λ rq, is_refresh_grant rq ∧ well_formed_request c single rq) refreshes.
(** * Properties *)

(** ** The library model on examples *)

Example urlparse_scheme_relative :
  up.scheme <$> up.urlparse "quotes" "" = Some EmptyString.
Proof. reflexivity. Qed.
Example urlparse_scheme_https :
  up.urlparse "HTTPS://api.tdameritrade.com/v1/accounts?fields=positions" ""
  = Some {| up.scheme := "https"; up.netloc := "api.tdameritrade.com";
            up.path := "/v1/accounts"; up.params := "";
            up.query := "fields=positions"; up.fragment := "" |}.
Proof. vm_compute. reflexivity. Qed.
Example urlparse_bracket : up.urlparse "http://[::1" "" = None.
Proof. vm_compute. reflexivity. Qed.
Example urlparse_brackets :
  up.netloc <$> up.urlparse "http://[::1]:8080/x" "" = Some "[::1]:8080".
Proof. vm_compute. reflexivity. Qed.
Example urlparse_bracket_in_path :
  up.path <$> up.urlparse "/[" "" = Some "/[".
Proof. vm_compute. reflexivity. Qed.
Example urljoin_relative :
  up.urljoin "https://api.tdameritrade.com/v1/" "accounts/1/orders?status=FILLED"
  = Some "https://api.tdameritrade.com/v1/accounts/1/orders?status=FILLED".
Proof. vm_compute. reflexivity. Qed.
Example urljoin_rooted :
  up.urljoin "https://api.tdameritrade.com/v1/" "/quotes"
  = Some "https://api.tdameritrade.com/quotes".
Proof. vm_compute. reflexivity. Qed.
Example urljoin_dots :
  up.urljoin "https://api.tdameritrade.com/v1/" "../v2/./quotes/.."
  = Some "https://api.tdameritrade.com/v2/".
Proof. vm_compute. reflexivity. Qed.
Example urljoin_bracket : up.urljoin "https://api.tdameritrade.com/v1/" "//[" = None.
Proof. vm_compute. reflexivity. Qed.
Example quote_redirect : up.quote "http://localhost:8080/cb?x=1" = "http%3A//localhost%3A8080/cb%3Fx%3D1".
Proof. vm_compute. reflexivity. Qed.

(** ** Running a method *)

Arguments expires_within : simpl never.
Arguments _get_access_code : simpl never.
Arguments _update_refresh_token : simpl never.
Arguments _update_access_token : simpl never.
Arguments _get_access_token_loop : simpl never.
Arguments _get_access_token : simpl never.
Arguments _request_refresh_token : simpl never.
Arguments _refresh_access_token : simpl never.
Arguments _authenticate : simpl never.
Arguments _initialize_authentication : simpl never.
Arguments timedelta_seconds : simpl never.
Arguments timedelta_days : simpl never.

Lemma run_bind {A B} (m : M A) (k : A → M B) self w :
  (m ≫= k) self w =
  match result (m self w) with
  | Return a => k a (obj (m self w)) (env (m self w))
  | Raise e => MkRun (Raise e) (obj (m self w)) (env (m self w))
  end.
Proof. reflexivity. Qed.

Lemma expires_within_set e d self w :
  expires_within (Some e) d self w =
  MkRun (Return (bool_decide (e - d < clock w (ticks w))%Z)) self (tick w).
Proof. reflexivity. Qed.

Lemma expires_within_unset d self w :
  expires_within None d self w = MkRun (Raise TypeError) self w.
Proof. reflexivity. Qed.

Lemma authenticate_normal self w e :
  _is_single_access self = false →
  access_expiration (_tokens self) = Some e →
  _authenticate self w =
  if bool_decide (e - timedelta_seconds 5 < clock w (ticks w))%Z
  then _refresh_access_token self (tick w)
  else MkRun (Return tt) self (tick w).
Proof.
  intros Hs He. unfold _authenticate.
  rewrite run_bind. simpl. rewrite Hs. rewrite run_bind. simpl.
  rewrite run_bind, He, expires_within_set. simpl.
  by destruct (bool_decide _).
Qed.

Lemma authenticate_single self w e :
  _is_single_access self = true →
  access_expiration (_tokens self) = Some e →
  _authenticate self w =
  if bool_decide (e - timedelta_seconds 30 < clock w (ticks w))%Z
  then _get_access_token max_retries_default self (tick w)
  else if bool_decide (e - timedelta_seconds 5 < clock w (S (ticks w)))%Z
       then _refresh_access_token self (tick (tick w))
       else MkRun (Return tt) self (tick (tick w)).
Proof.
  intros Hs He. unfold _authenticate.
  rewrite run_bind. simpl. rewrite Hs, He. rewrite run_bind, expires_within_set. simpl.
  destruct (bool_decide (e - timedelta_seconds 30 < _)%Z); [done|].
  rewrite run_bind, expires_within_set. simpl.
  by destruct (bool_decide _).
Qed.

Lemma authenticate_unset self w :
  access_expiration (_tokens self) = None →
  _authenticate self w = MkRun (Raise TypeError) self w.
Proof.
  intros He. unfold _authenticate.
  rewrite run_bind. simpl. rewrite He.
  by destruct (_is_single_access self).
Qed.

(** *** The leaves, as equations *)

Lemma get_access_code_run self w :
  _get_access_code self w =
  if bool_decide (is_Some (fs w !! normpath "chromedriver.exe"))
  then MkRun (Return (Some (webdriver w (length (visited w)) (auth_url (_td_config self)))))
         self (browsed (auth_url (_td_config self)) w)
  else MkRun (Return None) self w.
Proof.
  unfold _get_access_code. rewrite run_bind. simpl.
  rewrite run_bind. simpl.
  by destruct (bool_decide _).
Qed.

Lemma update_access_token_run tr self w :
  _update_access_token tr self w =
  match tr !! "access_token" with
  | Some tok => MkRun (Return tt) (with_access tok (clock w (ticks w)) self) (tick w)
  | None => MkRun (Raise KeyError) self w
  end.
Proof.
  unfold _update_access_token, subscript. rewrite run_bind.
  by destruct (tr !! "access_token").
Qed.

Lemma update_refresh_token_run tr self w :
  _update_refresh_token tr self w =
  match tr !! "refresh_token" with
  | Some tok =>
      MkRun (Return tt) (with_refresh tok (clock w (ticks w)) self)
        (if _store_refresh_token self
         then dump_world (_td_config self) tok (clock w (ticks w)) w
         else tick w)
  | None => MkRun (Raise KeyError) self w
  end.
Proof.
  unfold _update_refresh_token, subscript. rewrite run_bind.
  destruct (tr !! "refresh_token") as [tok|]; [|done].
  simpl. destruct self as [c st tk si li]. simpl.
  by destruct st.
Qed.

(** One turn of the loop of [_get_access_token]. *)
Lemma get_access_token_loop_turn retries at_ self w :
  _get_access_token_loop (S retries) at_ self w =
  let rp := reply_to (turn_request at_ self w) (env (_get_access_code self w)) in
  if bool_decide (status_code rp = 200%Z) then
    ((if negb (_is_single_access self)
      then _update_refresh_token (json rp) else mret tt);;
     _update_access_token (json rp)) self (turn_world at_ self w)
  else _get_access_token_loop retries at_ (set_logged_in_state false self)
         (turn_world at_ self w).
Proof.
  unfold turn_world, turn_request, returned.
  simpl. unfold _get_access_token_loop at 1. fold _get_access_token_loop.
  rewrite run_bind, get_access_code_run.
  destruct (bool_decide (is_Some _)); simpl;
    rewrite run_bind; simpl; rewrite run_bind; simpl;
    by destruct (bool_decide (status_code _ = _)).
Qed.

Lemma get_access_token_run n self w :
  _get_access_token n self w =
  _get_access_token_loop n
    (if negb (_is_single_access self) then Some "offline" else None) self w.
Proof. reflexivity. Qed.

Lemma refresh_access_token_run self w :
  _refresh_access_token self w =
  match refresh_expiration (_tokens self) with
  | None => MkRun (Raise TypeError) self w
  | Some e =>
      if bool_decide (e - timedelta_days 1 < clock w (ticks w))%Z
      then _get_access_token max_retries_default self (tick w)
      else
        let rq := refresh_request (refresh_token (_tokens self)) (_td_config self) in
        let rp := reply_to rq (tick w) in
        if bool_decide (status_code rp = 200%Z)
        then _update_access_token (json rp) self (posted rq (tick w))
        else _get_access_token max_retries_default
               (set_logged_in_state false self) (posted rq (tick w))
  end.
Proof.
  unfold _refresh_access_token. rewrite run_bind. simpl.
  rewrite run_bind.
  destruct (refresh_expiration (_tokens self)) as [e|]; [|done].
  rewrite expires_within_set. simpl.
  destruct (bool_decide (e - _ < _)%Z); [done|].
  rewrite run_bind. unfold _request_refresh_token. rewrite run_bind. simpl.
  by destruct (bool_decide (status_code _ = _)).
Qed.

(** *** The public methods, from what [_authenticate] leaves *)

Lemma access_token_property_run self w :
  access_token_property self w =
  let a := _authenticate self w in
  match result a with
  | Return _ =>
      MkRun (Return (if logged_in_state (obj a)
                     then Token (access_token (_tokens (obj a))) else PyFalse))
        (obj a) (env a)
  | Raise e => MkRun (Raise e) (obj a) (env a)
  end.
Proof.
  unfold access_token_property. rewrite run_bind. cbv zeta.
  destruct (result (_authenticate self w)); [|done].
  rewrite run_bind. simpl. by destruct (logged_in_state _).
Qed.

Lemma headers_run_any endpoint mode self w :
  headers endpoint mode self w =
  let a := _authenticate self w in
  match result a with
  | Return _ =>
      MkRun
        (if logged_in_state (obj a) then
           match resolve_endpoint endpoint with
           | Some url =>
               Return (Some url,
                       Some (merged_headers_of (access_token (_tokens (obj a))) mode))
           | None => Raise ValueError
           end
         else Return (None, None))
        (obj a) (env a)
  | Raise e => MkRun (Raise e) (obj a) (env a)
  end.
Proof.
  unfold headers, resolve_endpoint, merged_headers_of. rewrite run_bind. cbv zeta.
  destruct (result (_authenticate self w)); [|done].
  rewrite run_bind. simpl.
  destruct (logged_in_state _); [|done].
  rewrite run_bind.
  destruct (up.urlparse endpoint "") as [parsed|]; simpl; [|done].
  rewrite run_bind.
  destruct (up.mem (up.scheme parsed) _); simpl; [done|].
  by destruct (up.urljoin _ _).
Qed.

Lemma merged_headers_authorization tok mode :
  merged_headers_of tok mode !! "Authorization"
  = Some ("Bearer " +:+ format_value tok).
Proof.
  unfold merged_headers_of.
  destruct (bool_decide (mode = Some "application/json")).
  - by rewrite lookup_insert_ne, lookup_singleton_eq.
  - by rewrite lookup_singleton_eq.
Qed.

Lemma repr_run self w :
  __repr__ self w =
  match access_expiration (_tokens self) with
  | None => MkRun (Raise TypeError) self (tick w)
  | Some e =>
      let self' := if bool_decide (e < clock w (ticks w))%Z
                   then set_logged_in_state false self else self in
      MkRun (Return (str_bool (logged_in_state self'))) self' (tick w)
  end.
Proof.
  unfold __repr__. rewrite run_bind. simpl. rewrite run_bind. simpl.
  destruct (access_expiration (_tokens self)) as [e|]; simpl; [|done].
  rewrite run_bind.
  by destruct (bool_decide _).
Qed.

(** ** Invariants of the methods

    A property [I] of the object and the world that every step of the
    class keeps is kept by every method. *)
Section Invariant.

Variable I : TDAuthentication → World → Prop.

Hypothesis I_tick : ∀ self w, I self w → I self (tick w).
Hypothesis I_browse : ∀ u self w, I self w → I self (browsed u w).
Hypothesis I_post_code : ∀ at_ code self w,
  I self w → I self (posted (access_code_request at_ code (_td_config self)) w).
Hypothesis I_post_refresh : ∀ self w,
  I self w → is_Some (refresh_expiration (_tokens self)) →
  I self (posted (refresh_request (refresh_token (_tokens self)) (_td_config self)) w).
Hypothesis I_logout : ∀ self w, I self w → I (set_logged_in_state false self) w.
Hypothesis I_access : ∀ tok self w,
  I self w → I (with_access tok (clock w (ticks w)) self) (tick w).
Hypothesis I_refresh : ∀ tok self w,
  I self w → _is_single_access self = false →
  I (with_refresh tok (clock w (ticks w)) self)
    (if _store_refresh_token self
     then dump_world (_td_config self) tok (clock w (ticks w)) w
     else tick w).

Lemma inv_get_access_code self w :
  I self w →
  obj (_get_access_code self w) = self ∧ I self (env (_get_access_code self w)).
Proof.
  intros HI. rewrite get_access_code_run.
  destruct (bool_decide _); simpl; auto.
Qed.

Lemma inv_update_access_token tr self w :
  I self w →
  I (obj (_update_access_token tr self w)) (env (_update_access_token tr self w)).
Proof.
  intros HI. rewrite update_access_token_run.
  destruct (tr !! "access_token"); simpl; auto.
Qed.

Lemma inv_update_refresh_token tr self w :
  I self w → _is_single_access self = false →
  I (obj (_update_refresh_token tr self w)) (env (_update_refresh_token tr self w)).
Proof.
  intros HI Hs. rewrite update_refresh_token_run.
  destruct (tr !! "refresh_token"); simpl; auto.
Qed.

Lemma inv_get_access_token_loop n at_ self w :
  I self w →
  I (obj (_get_access_token_loop n at_ self w))
    (env (_get_access_token_loop n at_ self w)).
Proof.
  revert self w. induction n as [|n IH]; intros self w HI; [done|].
  rewrite get_access_token_loop_turn. cbv zeta.
  destruct (inv_get_access_code self w HI) as [_ HI1].
  assert (HI2 : I self (turn_world at_ self w)) by by apply I_post_code.
  set (rp := reply_to _ _).
  destruct (bool_decide (status_code _ = _)).
  - rewrite run_bind.
    destruct (_is_single_access self) eqn:Hs; simpl.
    + by apply inv_update_access_token.
    + pose proof (inv_update_refresh_token (json rp) _ _ HI2 Hs) as HI3.
      destruct (_update_refresh_token _ _ _) as [[[]|] self' w']; simpl in *; [|done].
      by apply inv_update_access_token.
  - apply IH. by apply I_logout.
Qed.

Lemma inv_get_access_token n self w :
  I self w →
  I (obj (_get_access_token n self w)) (env (_get_access_token n self w)).
Proof. rewrite get_access_token_run. apply inv_get_access_token_loop. Qed.

Lemma inv_refresh_access_token self w :
  I self w →
  I (obj (_refresh_access_token self w)) (env (_refresh_access_token self w)).
Proof.
  intros HI. rewrite refresh_access_token_run.
  destruct (refresh_expiration (_tokens self)) as [e|] eqn:He; [|done].
  destruct (bool_decide (e - _ < _)%Z).
  { by apply inv_get_access_token, I_tick. }
  cbv zeta.
  assert (I self (posted (refresh_request (refresh_token (_tokens self)) (_td_config self))
                    (tick w))) as HI2.
  { apply I_post_refresh; [by apply I_tick|]. rewrite He. by eexists. }
  destruct (bool_decide (status_code _ = _)).
  - by apply inv_update_access_token.
  - by apply inv_get_access_token, I_logout.
Qed.

Lemma inv_authenticate self w :
  I self w →
  I (obj (_authenticate self w)) (env (_authenticate self w)).
Proof.
  intros HI.
  destruct (access_expiration (_tokens self)) as [e|] eqn:He;
    [|by rewrite authenticate_unset].
  destruct (_is_single_access self) eqn:Hs.
  - rewrite (authenticate_single _ _ e) by done.
    destruct (bool_decide (e - timedelta_seconds 30 < _)%Z).
    { by apply inv_get_access_token, I_tick. }
    destruct (bool_decide _).
    + by apply inv_refresh_access_token, I_tick, I_tick.
    + simpl. by apply I_tick, I_tick.
  - rewrite (authenticate_normal _ _ e) by done.
    destruct (bool_decide _).
    + by apply inv_refresh_access_token, I_tick.
    + simpl. by apply I_tick.
Qed.

Lemma inv_headers endpoint mode self w :
  I self w →
  I (obj (headers endpoint mode self w)) (env (headers endpoint mode self w)).
Proof.
  intros HI. pose proof (inv_authenticate self w HI) as HI1.
  unfold headers. rewrite run_bind.
  destruct (result (_authenticate self w)); [|done].
  rewrite run_bind. simpl.
  destruct (logged_in_state _); [|done].
  rewrite run_bind.
  destruct (up.urlparse endpoint "") as [parsed|]; simpl; [|done].
  rewrite run_bind.
  destruct (up.mem (up.scheme parsed) _); simpl; [done|].
  by destruct (up.urljoin _ _).
Qed.

Lemma inv_access_token_property self w :
  I self w →
  I (obj (access_token_property self w)) (env (access_token_property self w)).
Proof.
  intros HI. pose proof (inv_authenticate self w HI) as HI1.
  unfold access_token_property. rewrite run_bind.
  destruct (result (_authenticate self w)); [|done].
  rewrite run_bind. simpl.
  by destruct (logged_in_state _).
Qed.

Lemma inv_repr self w :
  I self w → I (obj (__repr__ self w)) (env (__repr__ self w)).
Proof.
  intros HI. unfold __repr__. rewrite run_bind. simpl.
  rewrite run_bind. simpl.
  destruct (access_expiration (_tokens self)) as [e|]; simpl; [|by apply I_tick].
  rewrite run_bind.
  destruct (bool_decide _); simpl; auto.
Qed.

Lemma inv_after_call c self w :
  I self w → I (after_call c self w).1 (after_call c self w).2.
Proof.
  destruct c; simpl;
    auto using inv_headers, inv_access_token_property, inv_repr.
Qed.

Hypothesis I_files : ∀ f self w, I self w → I self (with_fs f (dumped w) w).

(** The constructor: [I] holds of the fresh object, and of the object
    with the record of the user loaded when the constructor loads it. *)
Lemma inv_init td_config store single w0 :
  I (fresh td_config store single) w0 →
  (∀ tok exp,
     store = true → single = false →
     fs w0 !! normpath (pickle_name td_config) = Some (Pickle tok exp) →
     I (set_tokens (set_refresh tok exp (_tokens (fresh td_config store single)))
          (fresh td_config store single)) w0) →
  I (obj (__init__ td_config store single w0)) (env (__init__ td_config store single w0)).
Proof.
  intros HI Hload. unfold __init__.
  assert (I (obj (_initialize_authentication (fresh td_config store single) w0))
            (env (_initialize_authentication (fresh td_config store single) w0))) as HI1.
  { unfold _initialize_authentication. rewrite run_bind. simpl.
    rewrite run_bind. simpl.
    destruct (bool_decide (is_Some _)) eqn:Hfile; [|by apply inv_get_access_token].
    destruct store, single; simpl.
    - rewrite run_bind. unfold os_remove.
      destruct (fs w0 !! normpath (dot_pickle_name td_config)); simpl; [|done].
      by apply inv_get_access_token, I_files.
    - rewrite run_bind. unfold pickle_load. simpl.
      destruct (fs w0 !! normpath (pickle_name td_config)) as [[tok exp|]|] eqn:Hf;
        simpl; [|done..].
      rewrite run_bind. simpl.
      by apply inv_refresh_access_token, Hload.
    - rewrite run_bind. unfold os_remove.
      destruct (fs w0 !! normpath (dot_pickle_name td_config)); simpl; [|done].
      by apply inv_get_access_token, I_files.
    - rewrite run_bind. unfold os_remove.
      destruct (fs w0 !! normpath (dot_pickle_name td_config)); simpl; [|done].
      by apply inv_get_access_token, I_files. }
  rewrite run_bind.
  destruct (result (_initialize_authentication _ _)); [|done].
  rewrite run_bind. simpl. by apply I_tick.
Qed.

Lemma inv_reachable td_config store single w0 self w :
  I (fresh td_config store single) w0 →
  (∀ tok exp,
     store = true → single = false →
     fs w0 !! normpath (pickle_name td_config) = Some (Pickle tok exp) →
     I (set_tokens (set_refresh tok exp (_tokens (fresh td_config store single)))
          (fresh td_config store single)) w0) →
  reachable td_config store single w0 self w → I self w.
Proof.
  intros HI Hload. induction 1 as [Hret|c self w _ IH|f self w _ IH].
  - by apply inv_init.
  - by apply inv_after_call.
  - by apply I_files.
Qed.

End Invariant.

(** ** Full authentication *)

(** A turn of the loop opens at most a browser session and posts one
    request: the rest of the world stays. *)
Lemma turn_world_sent at_ self w :
  sent (turn_world at_ self w) = turn_request at_ self w :: sent w.
Proof.
  unfold turn_world. rewrite get_access_code_run.
  by destruct (bool_decide _).
Qed.

Lemma turn_world_rest at_ self w :
  clock (turn_world at_ self w) = clock w ∧
  ticks (turn_world at_ self w) = ticks w ∧
  token_endpoint (turn_world at_ self w) = token_endpoint w ∧
  fs (turn_world at_ self w) = fs w ∧
  dumped (turn_world at_ self w) = dumped w.
Proof.
  unfold turn_world. rewrite get_access_code_run.
  by destruct (bool_decide _).
Qed.

Lemma turn_reply at_ self w :
  reply_to (turn_request at_ self w) (env (_get_access_code self w)) =
  token_endpoint w (length (sent w)) (turn_request at_ self w).
Proof.
  unfold reply_to. rewrite get_access_code_run.
  by destruct (bool_decide _).
Qed.

Lemma turn_request_grant at_ self w : is_code_grant (turn_request at_ self w).
Proof. reflexivity. Qed.

Lemma code_grant_not_refresh rq : is_code_grant rq → ¬ is_refresh_grant rq.
Proof. unfold is_code_grant, is_refresh_grant. by intros ->. Qed.

(** The step that follows a 200 reply posts nothing. *)
Lemma grant_step_sent tr self w :
  sent (env (((if negb (_is_single_access self)
               then _update_refresh_token tr else mret tt);;
              _update_access_token tr) self w)) = sent w.
Proof.
  rewrite run_bind.
  assert (sent (env ((if negb (_is_single_access self)
                      then _update_refresh_token tr else mret tt) self w)) = sent w) as Hs.
  { destruct (_is_single_access self); simpl; [done|].
    rewrite update_refresh_token_run.
    destruct (tr !! "refresh_token"); [|done].
    by destruct (_store_refresh_token self). }
  destruct ((if negb (_is_single_access self)
             then _update_refresh_token tr else mret tt) self w) as [[[]|] self' w'];
    simpl in *; [|done].
  rewrite update_access_token_run.
  by destruct (tr !! "access_token").
Qed.

(** The loop posts at most [n] requests, each an authorization-code
    grant. *)
Lemma get_access_token_loop_posts n at_ self w :
  ∃ new, posted_since w (env (_get_access_token_loop n at_ self w)) new ∧
         length new ≤ n ∧ Forall is_code_grant new.
Proof.
  unfold posted_since.
  revert self w. induction n as [|n IH]; intros self w.
  { exists []. by repeat split. }
  rewrite get_access_token_loop_turn. cbv zeta.
  destruct (bool_decide (status_code _ = _)).
  - exists [turn_request at_ self w]. rewrite grant_step_sent, turn_world_sent.
    repeat split; simpl; [lia|].
    repeat constructor.
  - destruct (IH (set_logged_in_state false self) (turn_world at_ self w))
      as (new & Hnew & Hlen & Hall).
    exists (new ++ [turn_request at_ self w]).
    rewrite Hnew, turn_world_sent, <- app_assoc. repeat split.
    + rewrite length_app. simpl. lia.
    + apply Forall_app. split; [done|]. repeat constructor.
Qed.

(** When every reply fails, the loop runs out: the object is logged out
    and nothing else of it has moved, and no file is written. *)
Lemma get_access_token_loop_fails n at_ self w :
  endpoint_fails n w →
  let r := _get_access_token_loop n at_ self w in
  result r = Return tt ∧
  obj r = (if n is O then self else set_logged_in_state false self) ∧
  fs (env r) = fs w ∧ dumped (env r) = dumped w ∧
  clock (env r) = clock w ∧ ticks (env r) = ticks w ∧
  token_endpoint (env r) = token_endpoint w ∧
  length (sent (env r)) = length (sent w) + n.
Proof.
  revert self w. induction n as [|n IH]; intros self w Hfail; cbv zeta.
  { simpl. repeat split; lia. }
  rewrite get_access_token_loop_turn. cbv zeta.
  rewrite turn_reply.
  rewrite bool_decide_eq_false_2 by (apply Hfail; lia).
  destruct (turn_world_rest at_ self w) as (Hc & Ht & He & Hf & Hd).
  pose proof (turn_world_sent at_ self w) as Hs.
  destruct (IH (set_logged_in_state false self) (turn_world at_ self w))
    as (Hr & Ho & Hf' & Hd' & Hc' & Ht' & He' & Hs').
  { intros k rq Hk. rewrite He. apply Hfail. rewrite Hs in Hk. simpl in Hk. lia. }
  rewrite Hr, Ho, Hf', Hd', Hc', Ht', He', Hs', Hs. simpl.
  repeat split; try done; try lia. by destruct n.
Qed.

(** C4: [_get_access_token] posts at most three authorization-code
    exchanges; a reply that is not 200 sets the logged-in flag to false
    before the next turn of the loop; and when the three replies are not
    200 the method returns without raising, the manager is logged out, its
    tokens are as they were and no file is written. *)
Theorem get_access_token_gives_up_after_three self w :
  let r := _get_access_token max_retries_default self w in
  (∃ new, posted_since w (env r) new ∧ length new ≤ 3 ∧ Forall is_code_grant new) ∧
  (∀ retries at_,
     status_code (reply_to (turn_request at_ self w) (env (_get_access_code self w))) ≠ 200%Z →
     _get_access_token_loop (S retries) at_ self w =
     _get_access_token_loop retries at_ (set_logged_in_state false self)
       (turn_world at_ self w)) ∧
  (endpoint_fails 3 w →
     result r = Return tt ∧ logged_in_state (obj r) = false ∧
     _tokens (obj r) = _tokens self ∧
     fs (env r) = fs w ∧ dumped (env r) = dumped w ∧
     length (sent (env r)) = length (sent w) + 3).
Proof.
  cbv zeta. rewrite get_access_token_run. split; [|split].
  - apply get_access_token_loop_posts.
  - intros retries at_ Hrp. rewrite get_access_token_loop_turn. cbv zeta.
    by rewrite bool_decide_eq_false_2.
  - intros Hfail.
    destruct (get_access_token_loop_fails 3
                (if negb (_is_single_access self) then Some "offline" else None)
                self w Hfail) as (Hr & Ho & Hf & Hd & _ & _ & _ & Hs).
    unfold max_retries_default. rewrite Ho. by repeat split.
Qed.

Lemma get_access_token_gives_up_after_three_witness :
  let self := fresh sample_config true false in
  let w := world_of seconds_clock down ∅ in
  let r := _get_access_token max_retries_default self w in
  endpoint_fails 3 w ∧
  result r = Return tt ∧ logged_in_state (obj r) = false ∧
  dumped (env r) = [] ∧ length (sent (env r)) = 3.
Proof.
  cbv zeta.
  assert (endpoint_fails 3 (world_of seconds_clock down ∅)) as Hfail.
  { intros k rq _. simpl. discriminate. }
  split; [exact Hfail|].
  destruct (proj2 (proj2 (get_access_token_gives_up_after_three
                            (fresh sample_config true false)
                            (world_of seconds_clock down ∅))) Hfail)
    as (Hr & Hl & _ & _ & Hd & Hs).
  exact (conj Hr (conj Hl (conj Hd Hs))).
Defined.

(** A construction in which no record of the user is found and every
    exchange fails returns, and leaves the fresh object. *)
Lemma failed_construction td_config store single w0 :
  fs w0 !! normpath (dot_pickle_name td_config) = None →
  endpoint_fails 3 w0 →
  let r := __init__ td_config store single w0 in
  result r = Return tt ∧ obj r = fresh td_config store single ∧
  dumped (env r) = dumped w0.
Proof.
  intros Hfile Hfail. cbv zeta. unfold __init__.
  rewrite run_bind.
  assert (_initialize_authentication (fresh td_config store single) w0 =
          _get_access_token max_retries_default (fresh td_config store single) w0) as ->.
  { unfold _initialize_authentication. rewrite run_bind. simpl.
    rewrite run_bind. simpl. by rewrite Hfile. }
  rewrite get_access_token_run.
  destruct (get_access_token_loop_fails 3
              (if negb (_is_single_access (fresh td_config store single))
               then Some "offline" else None)
              (fresh td_config store single) w0 Hfail) as (Hr & Ho & _ & Hd & _).
  unfold max_retries_default. rewrite Hr, Ho. by rewrite run_bind.
Qed.

(** C1: the property and [headers] do not keep to "never raises": on a
    manager whose construction found no record of the user and whose three
    exchanges failed, the constructor returns a logged-out object with
    [access_expiration] unset, and on it the [access_token] property and
    [headers] raise [TypeError] instead of returning [False] and
    [(None, None)]. *)
Theorem unset_expiration_makes_access_token_raise td_config store single w0 :
  fs w0 !! normpath (dot_pickle_name td_config) = None →
  endpoint_fails 3 w0 →
  let r := __init__ td_config store single w0 in
  result r = Return tt ∧
  logged_in_state (obj r) = false ∧
  access_expiration (_tokens (obj r)) = None ∧
  result (access_token_property (obj r) (env r)) = Raise TypeError ∧
  ∀ endpoint mode, result (headers endpoint mode (obj r) (env r)) = Raise TypeError.
Proof.
  intros Hfile Hfail. cbv zeta.
  destruct (failed_construction td_config store single w0 Hfile Hfail) as (Hr & Ho & _).
  rewrite Hr, Ho. repeat split.
  - unfold access_token_property. by rewrite run_bind, authenticate_unset.
  - intros endpoint mode. unfold headers. by rewrite run_bind, authenticate_unset.
Qed.

Lemma unset_expiration_makes_access_token_raise_witness :
  let w0 := world_of seconds_clock down ∅ in
  let r := __init__ sample_config true false w0 in
  fs w0 !! normpath (dot_pickle_name sample_config) = None ∧
  endpoint_fails 3 w0 ∧
  result r = Return tt ∧
  result (access_token_property (obj r) (env r)) = Raise TypeError ∧
  result (headers "quotes" None (obj r) (env r)) = Raise TypeError.
Proof.
  cbv zeta.
  assert (fs (world_of seconds_clock down ∅) !! normpath (dot_pickle_name sample_config)
          = None) as Hfile by reflexivity.
  assert (endpoint_fails 3 (world_of seconds_clock down ∅)) as Hfail.
  { intros k rq _. simpl. discriminate. }
  destruct (unset_expiration_makes_access_token_raise
              sample_config true false (world_of seconds_clock down ∅) Hfile Hfail)
    as (Hr & _ & _ & Ha & Hh).
  exact (conj Hfile (conj Hfail (conj Hr (conj Ha (Hh "quotes" None))))).
Defined.

(** C10: on a manager whose [access_expiration] is unset, [__repr__]
    raises [TypeError], from the comparison of [None] with the time, and
    returns no logged-in flag.  The time is read before the comparison is
    tried, so the clock has moved to its next reading; the object and the
    rest of the world are as they were. *)
Theorem repr_raises_on_unset_expiration self w :
  access_expiration (_tokens self) = None →
  __repr__ self w = MkRun (Raise TypeError) self (tick w).
Proof.
  intros He. unfold __repr__. rewrite run_bind. simpl.
  rewrite run_bind. simpl. by rewrite He.
Qed.

Lemma repr_raises_on_unset_expiration_witness :
  let r := __init__ sample_config true false (world_of seconds_clock down ∅) in
  result r = Return tt ∧
  access_expiration (_tokens (obj r)) = None ∧
  result (__repr__ (obj r) (env r)) = Raise TypeError ∧
  obj (__repr__ (obj r) (env r)) = obj r ∧
  ticks (env (__repr__ (obj r) (env r))) = S (ticks (env r)).
Proof.
  cbv zeta.
  assert (access_expiration
            (_tokens (obj (__init__ sample_config true false
                             (world_of seconds_clock down ∅)))) = None) as He
    by (vm_compute; reflexivity).
  split; [vm_compute; reflexivity|]. split; [exact He|].
  rewrite (repr_raises_on_unset_expiration _ _ He). simpl.
  split; [reflexivity|]. split; reflexivity.
Defined.

(** ** Refresh and authenticate-before-use *)

(** Full authentication posts authorization-code grants only, so no
    refresh grant. *)
Lemma get_access_token_no_refresh_grant n self w :
  ∃ new, posted_since w (env (_get_access_token n self w)) new ∧
         Forall (λ rq, ¬ is_refresh_grant rq) new.
Proof.
  rewrite get_access_token_run.
  destruct (get_access_token_loop_posts n
              (if negb (_is_single_access self) then Some "offline" else None) self w)
    as (new & Hnew & _ & Hall).
  exists new. split; [done|].
  eapply Forall_impl; [exact Hall|]. apply code_grant_not_refresh.
Qed.

(** C3: when the expiration of the stored refresh token, minus one day, is
    earlier than the time read, [_refresh_access_token] is the full
    authentication (run after that one reading of the clock), and no
    request it posts is a refresh grant. *)
Theorem refresh_access_token_falls_back_to_full_authentication self w e :
  refresh_expiration (_tokens self) = Some e →
  (e - timedelta_days 1 < clock w (ticks w))%Z →
  _refresh_access_token self w = _get_access_token max_retries_default self (tick w) ∧
  ∃ new, posted_since w (env (_refresh_access_token self w)) new ∧
         Forall (λ rq, ¬ is_refresh_grant rq) new.
Proof.
  intros He Hlt.
  assert (_refresh_access_token self w =
          _get_access_token max_retries_default self (tick w)) as Heq.
  { rewrite refresh_access_token_run, He. by rewrite bool_decide_eq_true_2. }
  split; [exact Heq|]. rewrite Heq.
  apply (get_access_token_no_refresh_grant max_retries_default self (tick w)).
Qed.

Lemma refresh_access_token_falls_back_to_full_authentication_witness :
  let self := sample_manager false 1800 3600 in
  let w := world_of seconds_clock granting ∅ in
  refresh_expiration (_tokens self) = Some (timedelta_seconds 3600) ∧
  (timedelta_seconds 3600 - timedelta_days 1 < clock w (ticks w))%Z ∧
  _refresh_access_token self w = _get_access_token max_retries_default self (tick w).
Proof.
  cbv zeta.
  assert (timedelta_seconds 3600 - timedelta_days 1
          < clock (world_of seconds_clock granting ∅)
              (ticks (world_of seconds_clock granting ∅)))%Z as Hlt
    by (vm_compute; reflexivity).
  split; [reflexivity|]. split; [exact Hlt|].
  exact (proj1 (refresh_access_token_falls_back_to_full_authentication
                  (sample_manager false 1800 3600)
                  (world_of seconds_clock granting ∅)
                  (timedelta_seconds 3600) eq_refl Hlt)).
Defined.

(** The refresh that finds a refresh token more than a day from its
    expiration posts the refresh grant first. *)
Lemma refresh_access_token_posts_the_grant self w re :
  refresh_expiration (_tokens self) = Some re →
  ¬ (re - timedelta_days 1 < clock w (ticks w))%Z →
  ∃ later,
    sent (env (_refresh_access_token self w))
    = later ++ refresh_request (refresh_token (_tokens self)) (_td_config self) :: sent w.
Proof.
  intros Hre Hfresh. rewrite refresh_access_token_run, Hre.
  rewrite bool_decide_eq_false_2 by done. cbv zeta.
  destruct (bool_decide (status_code _ = _)).
  - exists []. rewrite update_access_token_run.
    by destruct (_ !! "access_token").
  - destruct (get_access_token_loop_posts max_retries_default
                (if negb (_is_single_access (set_logged_in_state false self))
                 then Some "offline" else None)
                (set_logged_in_state false self)
                (posted (refresh_request (refresh_token (_tokens self)) (_td_config self))
                   (tick w)))
      as (new & Hnew & _).
    exists new. rewrite get_access_token_run. exact Hnew.
Qed.

(** C2: with [access_expiration] set to [e], and [now] the reading of the
    clock that [_authenticate] takes first.  In normal mode the method is
    the refresh exactly when [e] is less than 5 seconds after [now] or
    before it, and otherwise does nothing.  In single-access mode the
    method is the full authentication when [e] is less than 30 seconds
    after [now] or before it, and then posts no refresh grant; otherwise
    the test of the normal mode, which no condition on the mode guards, is
    run too, on a second reading of the clock.  When [e] is less than 5
    seconds after that second reading, the method is the refresh, in
    single-access mode: it raises [TypeError] on a manager that holds no
    refresh expiration, and posts a refresh grant on one that holds a
    refresh token more than a day from its expiration.  Only when the
    second test fails too does the method do nothing.  Doing nothing
    leaves the object as it was and only moves the clock on. *)
Theorem authenticate_falls_through_in_single_access self w e :
  access_expiration (_tokens self) = Some e →
  let now_ := clock w (ticks w) in
  let now2 := clock w (S (ticks w)) in
  (_is_single_access self = true →
     ((e - timedelta_seconds 30 < now_)%Z →
        _authenticate self w = _get_access_token max_retries_default self (tick w) ∧
        ∃ new, posted_since w (env (_authenticate self w)) new ∧
               Forall (λ rq, ¬ is_refresh_grant rq) new) ∧
     (¬ (e - timedelta_seconds 30 < now_)%Z →
        ((e - timedelta_seconds 5 < now2)%Z →
           _authenticate self w = _refresh_access_token self (tick (tick w)) ∧
           (refresh_expiration (_tokens self) = None →
              _authenticate self w = MkRun (Raise TypeError) self (tick (tick w))) ∧
           (∀ re, refresh_expiration (_tokens self) = Some re →
              ¬ (re - timedelta_days 1 < clock w (S (S (ticks w))))%Z →
              ∃ later,
                sent (env (_authenticate self w))
                = later ++ refresh_request (refresh_token (_tokens self)) (_td_config self)
                    :: sent w)) ∧
        (¬ (e - timedelta_seconds 5 < now2)%Z →
           _authenticate self w = MkRun (Return tt) self (tick (tick w))))) ∧
  (_is_single_access self = false →
     ((e - timedelta_seconds 5 < now_)%Z →
        _authenticate self w = _refresh_access_token self (tick w)) ∧
     (¬ (e - timedelta_seconds 5 < now_)%Z →
        _authenticate self w = MkRun (Return tt) self (tick w))).
Proof.
  intros He now_ now2. subst now_ now2. split; intros Hs; split.
  - intros Hlt.
    assert (_authenticate self w =
            _get_access_token max_retries_default self (tick w)) as Heq.
    { rewrite (authenticate_single _ _ e) by done. by rewrite bool_decide_eq_true_2. }
    split; [exact Heq|]. rewrite Heq.
    apply (get_access_token_no_refresh_grant max_retries_default self (tick w)).
  - intros Hge. split.
    + intros Hlt.
      assert (_authenticate self w = _refresh_access_token self (tick (tick w))) as Heq.
      { rewrite (authenticate_single _ _ e) by done.
        rewrite bool_decide_eq_false_2 by done.
        by rewrite bool_decide_eq_true_2. }
      split; [exact Heq|]. split.
      * intros Hnone. by rewrite Heq, refresh_access_token_run, Hnone.
      * intros re Hre Hfresh. rewrite Heq.
        apply (refresh_access_token_posts_the_grant self (tick (tick w)) re Hre Hfresh).
    + intros Hge2. rewrite (authenticate_single _ _ e) by done.
      rewrite bool_decide_eq_false_2 by done.
      by rewrite bool_decide_eq_false_2.
  - intros Hlt. rewrite (authenticate_normal _ _ e) by done.
    by rewrite bool_decide_eq_true_2.
  - intros Hge. rewrite (authenticate_normal _ _ e) by done.
    by rewrite bool_decide_eq_false_2.
Qed.

(** A single-access manager whose token expires in 30 seconds, and a
    clock whose second reading comes 40 seconds after the first. *)
Lemma authenticate_falls_through_in_single_access_witness :
  let self := sample_manager true 30 0 in
  let w := world_of (clock_of [0; 40]%Z) granting ∅ in
  access_expiration (_tokens self) = Some (timedelta_seconds 30) ∧
  _is_single_access self = true ∧
  clock w (ticks w) = timedelta_seconds 0 ∧
  clock w (S (ticks w)) = timedelta_seconds 40 ∧
  _authenticate self w = MkRun (Raise TypeError) self (tick (tick w)).
Proof.
  cbv zeta. set (w := world_of (clock_of [0; 40]%Z) granting ∅).
  split; [reflexivity|]. split; [reflexivity|].
  split; [reflexivity|]. split; [reflexivity|].
  destruct (authenticate_falls_through_in_single_access
              (sample_manager true 30 0) w (timedelta_seconds 30) eq_refl)
    as [Hsingle _].
  destruct (Hsingle eq_refl) as [_ Hlate].
  destruct Hlate as [Hfall _]; [vm_compute; discriminate|].
  destruct Hfall as (_ & Hraise & _); [vm_compute; reflexivity|].
  exact (Hraise eq_refl).
Defined.

(** C6: a refresh exchange that the endpoint answers with 200 moves only
    the access-token state.  With a refresh token that is not within a day
    of its expiration, [_refresh_access_token] posts the one refresh-grant
    request; the refresh token, its expiration, the configuration and the
    two flags of the construction stay as they were, and so do the files;
    and when the reply carries an access token, that token, its expiration
    (the time read then plus 1800 seconds) and the logged-in flag are what
    is set. *)
Theorem refresh_updates_only_the_access_state self w e :
  refresh_expiration (_tokens self) = Some e →
  ¬ (e - timedelta_days 1 < clock w (ticks w))%Z →
  let rq := refresh_request (refresh_token (_tokens self)) (_td_config self) in
  let rp := token_endpoint w (length (sent w)) rq in
  status_code rp = 200%Z →
  let r := _refresh_access_token self w in
  refresh_token (_tokens (obj r)) = refresh_token (_tokens self) ∧
  refresh_expiration (_tokens (obj r)) = refresh_expiration (_tokens self) ∧
  _td_config (obj r) = _td_config self ∧
  _store_refresh_token (obj r) = _store_refresh_token self ∧
  _is_single_access (obj r) = _is_single_access self ∧
  fs (env r) = fs w ∧ dumped (env r) = dumped w ∧
  sent (env r) = rq :: sent w ∧
  is_refresh_grant rq ∧
  ∀ tok, json rp !! "access_token" = Some tok →
    result r = Return tt ∧
    access_token (_tokens (obj r)) = Some tok ∧
    access_expiration (_tokens (obj r))
      = Some (clock w (S (ticks w)) + timedelta_seconds ACCESS_DURATION)%Z ∧
    logged_in_state (obj r) = true.
Proof.
  intros He Hfresh rq rp Hok r. subst r.
  rewrite refresh_access_token_run, He.
  rewrite bool_decide_eq_false_2 by done. cbv zeta.
  change (reply_to (refresh_request (refresh_token (_tokens self)) (_td_config self))
            (tick w)) with rp.
  rewrite bool_decide_eq_true_2 by done.
  rewrite update_access_token_run.
  destruct (json rp !! "access_token") as [tok|]; simpl.
  - repeat split; try done; by intros ? [= <-].
  - by repeat split.
Qed.

Lemma refresh_updates_only_the_access_state_witness :
  let self := sample_manager false 4 172800 in
  let w := world_of seconds_clock granting ∅ in
  let r := _refresh_access_token self w in
  refresh_token (_tokens (obj r)) = Some "R" ∧
  refresh_expiration (_tokens (obj r)) = Some (timedelta_seconds 172800) ∧
  access_token (_tokens (obj r)) = Some "A" ∧
  access_expiration (_tokens (obj r)) = Some (timedelta_seconds 1801) ∧
  logged_in_state (obj r) = true.
Proof.
  cbv zeta.
  assert (¬ (timedelta_seconds 172800 - timedelta_days 1
             < clock (world_of seconds_clock granting ∅)
                 (ticks (world_of seconds_clock granting ∅)))%Z) as Hfresh
    by (vm_compute; discriminate).
  destruct (refresh_updates_only_the_access_state
              (sample_manager false 4 172800) (world_of seconds_clock granting ∅)
              (timedelta_seconds 172800) eq_refl Hfresh eq_refl)
    as (Hrt & Hre & _ & _ & _ & _ & _ & _ & _ & Hacc).
  destruct (Hacc "A" eq_refl) as (_ & Hat & Hae & Hl).
  exact (conj Hrt (conj Hre (conj Hat (conj Hae Hl)))).
Defined.

(** ** Request headers *)

Lemma headers_run endpoint mode self w :
  result (_authenticate self w) = Return tt →
  logged_in_state (obj (_authenticate self w)) = true →
  headers endpoint mode self w =
  MkRun
    (match resolve_endpoint endpoint with
     | Some url =>
         Return (Some url,
                 Some (merged_headers_of
                         (access_token (_tokens (obj (_authenticate self w)))) mode))
     | None => Raise ValueError
     end)
    (obj (_authenticate self w)) (env (_authenticate self w)).
Proof. intros Hr Hl. rewrite headers_run_any. cbv zeta. by rewrite Hr, Hl. Qed.

Lemma headers_logged_out endpoint mode self w :
  result (_authenticate self w) = Return tt →
  logged_in_state (obj (_authenticate self w)) = false →
  headers endpoint mode self w =
  MkRun (Return (None, None)) (obj (_authenticate self w)) (env (_authenticate self w)).
Proof. intros Hr Hl. rewrite headers_run_any. cbv zeta. by rewrite Hr, Hl. Qed.

(** *** Scenarios *)

(** The endpoint grants the first exchange: the manager is logged in, the
    property returns the token, and the file of the user holds the refresh
    token with the time of the grant plus 7,776,000 seconds. *)
Example first_exchange_granted :
  let r := __init__ sample_config true false (world_of seconds_clock granting ∅) in
  result r = Return tt ∧
  logged_in_state (obj r) = true ∧
  result (access_token_property (obj r) (env r)) = Return (Token (Some "A")) ∧
  fs (env r) !! "bobrefreshtoken.pickle"
    = Some (Pickle (Some "R") (Some (timedelta_seconds 7776000))) ∧
  length (sent (env r)) = 1.
Proof. vm_compute. by repeat split. Qed.

(** The endpoint is down: three exchanges, a logged-out manager and no
    file. *)
Example every_exchange_refused :
  let r := __init__ sample_config true false (world_of seconds_clock down ∅) in
  result r = Return tt ∧
  logged_in_state (obj r) = false ∧
  fs (env r) = ∅ ∧ dumped (env r) = [] ∧
  length (sent (env r)) = 3.
Proof. vm_compute. by repeat split. Qed.

(** A manager that logged in, then finds the endpoint down a day later:
    the refresh fails, the three exchanges fail, and [headers] returns
    [(None, None)]. *)
Example headers_after_losing_the_endpoint :
  let r := __init__ sample_config true false
             (world_of (late_clock 3 24) (granting_first 1) ∅) in
  logged_in_state (obj r) = true ∧
  headers "quotes" None (obj r) (env r)
    = MkRun (Return (None, None))
        (obj (_authenticate (obj r) (env r))) (env (_authenticate (obj r) (env r))) ∧
  length (sent (env (_authenticate (obj r) (env r)))) = 5.
Proof.
  cbv zeta. split; [vm_compute; reflexivity|]. split.
  - apply headers_logged_out; vm_compute; reflexivity.
  - vm_compute. reflexivity.
Qed.

(** C5, as the claim states it, fails twice.  For the endpoint [/quotes]
    the method returns [https://api.tdameritrade.com/v1/quotes], the join
    of the base with [quotes], while the join of the base with the
    endpoint as given is [https://api.tdameritrade.com/quotes].  And the
    method does not return a pair for every endpoint: for [http://[::1]
    it raises. *)
Lemma headers_join_counterexample :
  ¬ (∀ endpoint mode self w,
       result (_authenticate self w) = Return tt →
       logged_in_state (obj (_authenticate self w)) = true →
       ∃ url hdrs,
         url_as_specified endpoint = Some url ∧
         result (headers endpoint mode self w) = Return (Some url, Some hdrs)) ∧
  ¬ (∀ endpoint mode self w,
       result (_authenticate self w) = Return tt →
       logged_in_state (obj (_authenticate self w)) = true →
       ∃ url hdrs,
         result (headers endpoint mode self w) = Return (Some url, Some hdrs)).
Proof.
  split; intros Hclaim.
  - destruct (Hclaim "/quotes" None (sample_manager false 1800 172800)
                (world_of seconds_clock granting ∅) eq_refl eq_refl)
      as (url & hdrs & Hurl & Hh).
    rewrite headers_run in Hh by reflexivity.
    apply (f_equal (λ r, match r with
                         | Return (Some u, _) => u
                         | _ => EmptyString
                         end)) in Hh.
    assert (url = "https://api.tdameritrade.com/quotes") as ->
      by (vm_compute in Hurl; congruence).
    vm_compute in Hh. discriminate.
  - destruct (Hclaim "http://[::1" None (sample_manager false 1800 172800)
                (world_of seconds_clock granting ∅) eq_refl eq_refl)
      as (url & hdrs & Hh).
    rewrite headers_run in Hh by reflexivity.
    apply (f_equal (λ r, match r with
                         | Return _ => true
                         | Raise _ => false
                         end)) in Hh.
    vm_compute in Hh. discriminate.
Qed.

(** An endpoint with a host in which a square bracket is left open:
    [urlparse] raises, and so does [headers], on a manager that is logged
    in; the [access_token] property still returns the token. *)
Example headers_rejects_an_open_bracket :
  let self := sample_manager false 1800 172800 in
  let w := world_of seconds_clock granting ∅ in
  result (headers "http://[::1" None self w) = Raise ValueError ∧
  result (headers "//[" None self w) = Raise ValueError ∧
  result (headers "/x://[" None self w) = Raise ValueError ∧
  result (access_token_property self w) = Return (Token (Some "A")).
Proof.
  cbv zeta. rewrite !headers_run by reflexivity.
  repeat split; vm_compute; reflexivity.
Qed.

(** C5, amended: when the manager is logged in once [headers] has run
    authenticate-before-use, [headers endpoint mode] raises [ValueError]
    for an endpoint that [urllib.parse] refuses (in the endpoint as it is
    given, or stripped of its leading slashes, the host has one square
    bracket without the other).  For every other endpoint it returns the
    endpoint unchanged when its URL scheme is http or https, and otherwise
    the join of the base [https://api.tdameritrade.com/v1/] with the
    endpoint stripped of its leading slashes, paired with a mapping in
    which [Authorization] is [Bearer] and the current access token, and
    which binds [Content-type] (to [application/json]) exactly when
    [mode] is [application/json]; [quotes] resolves to
    [https://api.tdameritrade.com/v1/quotes]. *)
Theorem headers_of_a_logged_in_manager endpoint mode self w :
  let a := _authenticate self w in
  result a = Return tt →
  logged_in_state (obj a) = true →
  (up.urlparse endpoint "" = None →
   headers endpoint mode self w = MkRun (Raise ValueError) (obj a) (env a)) ∧
  (∀ parsed,
     up.urlparse endpoint "" = Some parsed →
     ((up.scheme parsed ∉ ["http"; "https"]) →
      up.urljoin api_base (up.lstrip "/" endpoint) = None →
      headers endpoint mode self w = MkRun (Raise ValueError) (obj a) (env a)) ∧
     (∀ url,
        (up.scheme parsed ∈ ["http"; "https"] ∧ url = endpoint) ∨
        ((up.scheme parsed ∉ ["http"; "https"]) ∧
         up.urljoin api_base (up.lstrip "/" endpoint) = Some url) →
        ∃ hdrs,
          headers endpoint mode self w
            = MkRun (Return (Some url, Some hdrs)) (obj a) (env a) ∧
          hdrs !! "Authorization"
            = Some ("Bearer " +:+ format_value (access_token (_tokens (obj a)))) ∧
          (mode = Some "application/json" →
           hdrs !! "Content-type" = Some "application/json") ∧
          (mode ≠ Some "application/json" → hdrs !! "Content-type" = None))) ∧
  (∃ parsed, up.urlparse "quotes" "" = Some parsed ∧
             (up.scheme parsed ∉ ["http"; "https"])) ∧
  up.urljoin api_base (up.lstrip "/" "quotes")
    = Some "https://api.tdameritrade.com/v1/quotes".
Proof.
  intros a Hr Hl. subst a.
  pose proof (headers_run endpoint mode self w Hr Hl) as Hrun.
  unfold resolve_endpoint in Hrun.
  split; [|split; [|split]].
  - intros Hparse. by rewrite Hparse in Hrun.
  - intros parsed Hparse. rewrite Hparse in Hrun. unfold up.mem in Hrun. split.
    + intros Hnin Hjoin.
      by rewrite bool_decide_eq_false_2, Hjoin in Hrun.
    + intros url Hurl.
      assert ((if bool_decide (up.scheme parsed ∈ ["http"; "https"])
               then Some endpoint
               else up.urljoin api_base (up.lstrip "/" endpoint)) = Some url) as Hres.
      { destruct Hurl as [[Hin ->]|[Hnin Hjoin]].
        - by rewrite bool_decide_eq_true_2.
        - by rewrite bool_decide_eq_false_2. }
      rewrite Hres in Hrun. eexists. split; [exact Hrun|].
      unfold merged_headers_of. split; [|split].
      * destruct (decide (mode = Some "application/json")) as [Hm|Hm].
        -- rewrite bool_decide_eq_true_2 by done.
           by rewrite lookup_insert_ne, lookup_singleton_eq.
        -- rewrite bool_decide_eq_false_2 by done.
           by rewrite lookup_singleton_eq.
      * intros ->. rewrite bool_decide_eq_true_2 by done. by rewrite lookup_insert_eq.
      * intros Hm. rewrite bool_decide_eq_false_2 by done. by rewrite lookup_singleton_ne.
  - eexists. split; [vm_compute; reflexivity|].
    simpl. apply not_elem_of_cons. split; [done|].
    apply not_elem_of_cons. split; [done|]. apply not_elem_of_nil.
  - vm_compute. reflexivity.
Qed.

Lemma headers_of_a_logged_in_manager_witness :
  let self := sample_manager false 1800 172800 in
  let w := world_of seconds_clock granting ∅ in
  result (_authenticate self w) = Return tt ∧
  logged_in_state (obj (_authenticate self w)) = true ∧
  (∃ hdrs,
     result (headers "quotes" (Some "application/json") self w)
       = Return (Some "https://api.tdameritrade.com/v1/quotes", Some hdrs) ∧
     hdrs !! "Authorization" = Some "Bearer A" ∧
     hdrs !! "Content-type" = Some "application/json") ∧
  up.urlparse "http://[::1" "" = None ∧
  result (headers "http://[::1" None self w) = Raise ValueError.
Proof.
  cbv zeta. split; [reflexivity|]. split; [reflexivity|].
  destruct (headers_of_a_logged_in_manager "quotes" (Some "application/json")
              (sample_manager false 1800 172800)
              (world_of seconds_clock granting ∅) eq_refl eq_refl)
    as (_ & Hparsed & (parsed & Hparse & Hrel) & Hquotes).
  destruct (proj2 (Hparsed parsed Hparse) _ (or_intror (conj Hrel Hquotes)))
    as (hdrs & Hrun & Hauth & Hjson & _).
  split.
  - exists hdrs. rewrite Hrun.
    split; [reflexivity|]. split; [exact Hauth|exact (Hjson eq_refl)].
  - split; [reflexivity|].
    rewrite (proj1 (headers_of_a_logged_in_manager "http://[::1" None
                      (sample_manager false 1800 172800)
                      (world_of seconds_clock granting ∅) eq_refl eq_refl) eq_refl).
    reflexivity.
Defined.

(** ** The expirations *)


(** *** Invariants that hold on to a reply

    A property [I] of the object and the world that stays when the world
    moves on (the clock reads on, more replies arrive), and that the two
    updates set up anew from a reply that has arrived, is kept by every
    method. *)
Section Issue.

Variable I : TDAuthentication → World → Prop.

Hypothesis I_later : ∀ self w w',
  clock w' = clock w → ticks w ≤ ticks w' → received w ⊆ received w' →
  I self w → I self w'.
Hypothesis I_logout : ∀ self w, I self w → I (set_logged_in_state false self) w.
Hypothesis I_access : ∀ rp t tok self w,
  (rp, t) ∈ received w → t ≤ ticks w ≤ S t →
  json rp !! "access_token" = Some tok →
  I self w → I (with_access tok (clock w (ticks w)) self) (tick w).
Hypothesis I_refresh : ∀ rp tok self w w',
  (rp, ticks w) ∈ received w →
  json rp !! "refresh_token" = Some tok →
  clock w' = clock w → ticks w' = S (ticks w) → received w' = received w →
  I self w → I (with_refresh tok (clock w (ticks w)) self) w'.













End Issue.

(** *** The tokens and the replies they came from *)










(** ** Single-access mode *)

Lemma single_access_kept_reachable td_config store w0 self w :
  reachable td_config store true w0 self w → single_access_kept w0 self w.
Proof.
  apply inv_reachable.
  - intros s v H. exact H.
  - intros u s v H. exact H.
  - intros a c s v (Hs & Ht & He & Hd & new & Hnew & Hall).
    repeat split; try done.
    exists (access_code_request a c (_td_config s) :: new). split.
    + unfold posted_since in *. simpl. by rewrite Hnew.
    + by constructor.
  - intros s v (_ & _ & He & _) [e He']. congruence.
  - intros s v H. exact H.
  - intros tok s v H. exact H.
  - intros tok s v (Hs & _) Hs'. congruence.
  - intros f s v H. exact H.
  - repeat split. by exists [].
  - intros tok exp _ [=].
Qed.

(** C9: in single-access mode, in every state that the public interface
    reaches, no refresh token and no refresh expiration is held in memory,
    the manager has written no file, and every request it has posted is an
    authorization-code grant and none a refresh grant.  An
    [access_expiration] found less than 30 seconds ahead sends
    [_authenticate] to the full authentication.  But an expiry that the
    first test does not find and the second test, five seconds before the
    expiration on a second reading of the clock, does find, sends
    [_authenticate] to the refresh, which raises [TypeError] at once, the
    refresh expiration being unset: no request is posted and no browser is
    opened, the object is as it was and the manager is not authenticated
    again. *)
Theorem single_access_late_expiry_raises td_config store w0 self w :
  reachable td_config store true w0 self w →
  refresh_token (_tokens self) = None ∧
  refresh_expiration (_tokens self) = None ∧
  dumped w = dumped w0 ∧
  (∃ new, posted_since w0 w new ∧
          Forall (λ rq, is_code_grant rq ∧ ¬ is_refresh_grant rq) new) ∧
  (∀ e, access_expiration (_tokens self) = Some e →
        ((e - timedelta_seconds 30 < clock w (ticks w))%Z →
         _authenticate self w = _get_access_token max_retries_default self (tick w)) ∧
        (¬ (e - timedelta_seconds 30 < clock w (ticks w))%Z →
         (e - timedelta_seconds 5 < clock w (S (ticks w)))%Z →
         _authenticate self w = MkRun (Raise TypeError) self (tick (tick w)) ∧
         sent (env (_authenticate self w)) = sent w ∧
         visited (env (_authenticate self w)) = visited w)).
Proof.
  intros Hreach.
  destruct (single_access_kept_reachable _ _ _ _ _ Hreach)
    as (Hs & Ht & He & Hd & new & Hnew & Hall).
  split; [exact Ht|]. split; [exact He|]. split; [exact Hd|]. split.
  - exists new. split; [done|].
    eapply Forall_impl; [exact Hall|].
    intros rq Hrq. split; [done|by apply code_grant_not_refresh].
  - intros e Hexp. split.
    + intros Hlt. rewrite (authenticate_single _ _ e) by done.
      by rewrite bool_decide_eq_true_2.
    + intros Hge Hlt.
      assert (_authenticate self w = MkRun (Raise TypeError) self (tick (tick w))) as ->.
      { rewrite (authenticate_single _ _ e) by done.
        rewrite bool_decide_eq_false_2 by done.
        rewrite bool_decide_eq_true_2 by done.
        by rewrite refresh_access_token_run, He. }
      done.
Qed.

(** A single-access manager that has logged in at time 0, and is used 35
    seconds before its token expires, with 40 seconds between the two
    readings of [_authenticate]. *)
Lemma single_access_late_expiry_raises_witness :
  let w0 := world_of (clock_of [0; 1; 1765; 1805]%Z) granting ∅ in
  let r := __init__ sample_config false true w0 in
  reachable sample_config false true w0 (obj r) (env r) ∧
  logged_in_state (obj r) = true ∧
  access_expiration (_tokens (obj r)) = Some (timedelta_seconds 1800) ∧
  clock (env r) (ticks (env r)) = timedelta_seconds 1765 ∧
  clock (env r) (S (ticks (env r))) = timedelta_seconds 1805 ∧
  _authenticate (obj r) (env r) = MkRun (Raise TypeError) (obj r) (tick (tick (env r))) ∧
  result (access_token_property (obj r) (env r)) = Raise TypeError.
Proof.
  cbv zeta.
  set (w0 := world_of (clock_of [0; 1; 1765; 1805]%Z) granting ∅).
  assert (reachable sample_config false true w0
            (obj (__init__ sample_config false true w0))
            (env (__init__ sample_config false true w0)))
    as Hreach by (apply reach_init; vm_compute; reflexivity).
  assert (access_expiration (_tokens (obj (__init__ sample_config false true w0)))
          = Some (timedelta_seconds 1800)) as Hexp by (vm_compute; reflexivity).
  destruct (single_access_late_expiry_raises _ _ _ _ _ Hreach)
    as (_ & _ & _ & _ & Hauth).
  destruct (proj2 (Hauth _ Hexp)) as (Hraise & _ & _).
  { vm_compute. discriminate. }
  { vm_compute. reflexivity. }
  split; [exact Hreach|]. split; [vm_compute; reflexivity|].
  split; [exact Hexp|]. split; [vm_compute; reflexivity|].
  split; [vm_compute; reflexivity|]. split; [exact Hraise|].
  rewrite access_token_property_run. cbv zeta. by rewrite Hraise.
Defined.

(** ** The persisted refresh record *)

Lemma normpath_dot_relative p :
  is_relative p = true → normpath ("./" +:+ p) = normpath p.
Proof.
  intros Hrel. unfold normpath. simpl.
  destruct p as [|c r]; [done|]. simpl in *.
  by destruct (bool_decide (c = "/"%char)).
Qed.

Lemma pickle_name_relative c :
  is_relative (user c) = true → is_relative (pickle_name c) = true.
Proof. unfold pickle_name. by destruct (user c). Qed.

Lemma initialize_loads_the_record td_config tok exp w :
  fs w !! normpath (dot_pickle_name td_config) ≠ None →
  fs w !! normpath (pickle_name td_config) = Some (Pickle tok exp) →
  _initialize_authentication (fresh td_config true false) w =
  _refresh_access_token
    (set_tokens (set_refresh tok exp (_tokens (fresh td_config true false)))
       (fresh td_config true false)) w.
Proof.
  intros Hdot Hfile. unfold _initialize_authentication.
  rewrite run_bind. simpl. rewrite run_bind. simpl.
  rewrite bool_decide_eq_true_2 by (by apply not_eq_None_Some).
  rewrite run_bind. unfold pickle_load. simpl. rewrite Hfile. simpl.
  by rewrite run_bind.
Qed.

(** Under a [user] that starts at the root, the path that is looked up
    and the path that is opened are two files. *)
Lemma normpath_from_slashes p r : normpath_from true p ≠ String "/" r.
Proof.
  remember (String.length p) as n eqn:Hn. revert p Hn.
  induction n as [n IH] using lt_wf_ind. intros p Hn.
  destruct p as [|c p']; [done|]. cbn [normpath_from andb].
  destruct (bool_decide (c = "/"%char)) eqn:Hc.
  { apply (IH (String.length p')); [simpl in Hn; lia|done]. }
  destruct p' as [|d p'']; [intros [= ->]; by rewrite bool_decide_eq_true_2 in Hc|].
  destruct (bool_decide (c = "."%char) && bool_decide (d = "/"%char)).
  - apply (IH (String.length p'')); [simpl in Hn; lia|done].
  - intros [= -> _]. by rewrite bool_decide_eq_true_2 in Hc.
Qed.

Lemma normpath_rooted c :
  is_relative (user c) = false →
  normpath (dot_pickle_name c) ≠ normpath (pickle_name c).
Proof.
  unfold dot_pickle_name, pickle_name, normpath.
  destruct (user c) as [|ch u]; [done|]. simpl is_relative.
  intros Hroot. apply negb_false_iff, bool_decide_eq_true in Hroot. subst ch.
  change ("./" +:+ String "/" u +:+ "refreshtoken.pickle")
    with (String "." (String "/" (String "/" (u +:+ "refreshtoken.pickle")))).
  change (String "/" u +:+ "refreshtoken.pickle")
    with (String "/" (u +:+ "refreshtoken.pickle")).
  cbn [normpath_from andb]. rewrite !bool_decide_eq_true_2 by done.
  cbn [andb].
  set (q := u +:+ "refreshtoken.pickle").
  intros Heq. apply (normpath_from_slashes q q). rewrite Heq.
  by destruct q.
Qed.

Lemma initialize_without_a_record td_config store single w :
  fs w !! normpath (dot_pickle_name td_config) = None →
  _initialize_authentication (fresh td_config store single) w =
  _get_access_token max_retries_default (fresh td_config store single) w.
Proof.
  intros Hdot. unfold _initialize_authentication.
  rewrite run_bind. simpl. rewrite run_bind. simpl.
  by rewrite Hdot.
Qed.

(** C8: the pair that [_update_refresh_token] writes to the file of the
    user, when persistence is enabled, is the refresh token with its
    expiration, and [pickle.load] on that file returns the same pair.
    Under a [user] that is a relative path a later construction loads
    that pair into the fresh object and runs the refresh on it.  Under a
    [user] that starts at the root it does not: the record is written to
    [<user>refreshtoken.pickle] while the constructor looks for
    [./<user>refreshtoken.pickle], another file; unless that other file is
    there, the constructor runs the full authentication on the fresh
    object, without the pair, and posts no refresh grant. *)
Theorem rooted_user_record_is_not_reloaded td_config tr rtok self1 w1 w2 :
  _td_config self1 = td_config →
  _store_refresh_token self1 = true →
  tr !! "refresh_token" = Some rtok →
  fs w2 = fs (env (_update_refresh_token tr self1 w1)) →
  let rexp := (clock w1 (ticks w1) + timedelta_seconds REFRESH_DURATION)%Z in
  let self2 := fresh td_config true false in
  let loaded := set_tokens (set_refresh (Some rtok) (Some rexp) (_tokens self2)) self2 in
  dumped (env (_update_refresh_token tr self1 w1))
    = (normpath (pickle_name td_config), Pickle (Some rtok) (Some rexp)) :: dumped w1 ∧
  pickle_load (pickle_name td_config) self2 w2
    = MkRun (Return (Some rtok, Some rexp)) self2 w2 ∧
  (is_relative (user td_config) = true →
     _initialize_authentication self2 w2 = _refresh_access_token loaded w2) ∧
  (is_relative (user td_config) = false →
     fs w1 !! normpath (dot_pickle_name td_config) = None →
     _initialize_authentication self2 w2
       = _get_access_token max_retries_default self2 w2 ∧
     ∃ new, posted_since w2 (env (_initialize_authentication self2 w2)) new ∧
            Forall (λ rq, ¬ is_refresh_grant rq) new).
Proof.
  intros Hc Hstore Htok Hfs rexp self2 loaded.
  rewrite update_refresh_token_run, Htok, Hstore, Hc in Hfs.
  rewrite update_refresh_token_run, Htok, Hstore, Hc.
  cbn [env dump_world with_fs fs dumped tick] in Hfs |- *.
  assert (fs w2 !! normpath (pickle_name td_config)
          = Some (Pickle (Some rtok) (Some rexp))) as Hfile.
  { rewrite Hfs. apply lookup_insert_eq. }
  split; [done|]. split; [|split].
  - unfold pickle_load. by rewrite Hfile.
  - intros Hrel. apply initialize_loads_the_record; [|done].
    unfold dot_pickle_name.
    rewrite normpath_dot_relative by by apply pickle_name_relative.
    by rewrite Hfile.
  - intros Hroot Hdot.
    assert (_initialize_authentication self2 w2
            = _get_access_token max_retries_default self2 w2) as Heq.
    { apply initialize_without_a_record.
      rewrite Hfs, lookup_insert_ne; [done|].
      intros Heq. by apply (normpath_rooted td_config Hroot). }
    split; [exact Heq|]. rewrite Heq.
    apply (get_access_token_no_refresh_grant max_retries_default self2 w2).
Qed.

(** The record of a first construction under [/home/bob/], and a second
    construction a day later. *)
Lemma rooted_user_record_is_not_reloaded_witness :
  let tr : gmap string string := list_to_map [("access_token", "A"); ("refresh_token", "R")] in
  let self1 := fresh rooted_config true false in
  let w1 := world_of seconds_clock granting ∅ in
  let w2 := world_of (late_clock 0 24) granting
              (fs (env (_update_refresh_token tr self1 w1))) in
  let r := __init__ rooted_config true false w2 in
  is_relative (user rooted_config) = false ∧
  fs w2 = {[ "/home/bob/refreshtoken.pickle"
             := Pickle (Some "R") (Some (timedelta_seconds 7776000)) ]} ∧
  normpath (dot_pickle_name rooted_config) = "home/bob/refreshtoken.pickle" ∧
  _initialize_authentication (fresh rooted_config true false) w2
    = _get_access_token max_retries_default (fresh rooted_config true false) w2 ∧
  result r = Return tt ∧
  sent (env r) = [access_code_request (Some "offline") None rooted_config] ∧
  refresh_expiration (_tokens (obj r)) = Some (timedelta_seconds (86400 + 7776000)).
Proof.
  cbv zeta.
  set (tr := list_to_map [("access_token", "A"); ("refresh_token", "R")] : gmap string string).
  set (w1 := world_of seconds_clock granting ∅).
  set (w2 := world_of (late_clock 0 24) granting
               (fs (env (_update_refresh_token tr (fresh rooted_config true false) w1)))).
  destruct (rooted_user_record_is_not_reloaded rooted_config tr "R"
              (fresh rooted_config true false) w1 w2 eq_refl eq_refl eq_refl eq_refl)
    as (_ & _ & _ & Hrooted).
  destruct (Hrooted eq_refl eq_refl) as [Hinit _].
  split; [reflexivity|].
  split; [vm_compute; reflexivity|].
  split; [vm_compute; reflexivity|].
  split; [exact Hinit|].
  split; [vm_compute; reflexivity|].
  split; [vm_compute; reflexivity|].
  vm_compute. reflexivity.
Defined.

(** * Further properties of the class *)

(** ** What a manager keeps for its whole life *)

Lemma setup_reachable td_config store single w0 self w :
  reachable td_config store single w0 self w →
  _td_config self = td_config ∧
  _store_refresh_token self = store ∧
  _is_single_access self = single.
Proof.
  apply (inv_reachable
           (λ s _, _td_config s = td_config ∧ _store_refresh_token s = store ∧
                   _is_single_access s = single)); try done.
Qed.

(** X1: the configuration and the two flags given to the constructor are
    never assigned again: in every state the public interface reaches they
    are the constructor's arguments. *)
Theorem construction_arguments_are_kept td_config store single w0 self w :
  reachable td_config store single w0 self w →
  _td_config self = td_config ∧
  _store_refresh_token self = store ∧
  _is_single_access self = single.
Proof. apply setup_reachable. Qed.

Lemma construction_arguments_are_kept_witness :
  let w0 := world_of seconds_clock granting ∅ in
  let r := __init__ sample_config true false w0 in
  reachable sample_config true false w0 (obj r) (env r) ∧
  _td_config (obj r) = sample_config.
Proof.
  cbv zeta.
  assert (reachable sample_config true false (world_of seconds_clock granting ∅)
            (obj (__init__ sample_config true false (world_of seconds_clock granting ∅)))
            (env (__init__ sample_config true false (world_of seconds_clock granting ∅))))
    as Hreach by (apply reach_init; vm_compute; reflexivity).
  split; [exact Hreach|].
  exact (proj1 (construction_arguments_are_kept _ _ _ _ _ _ Hreach)).
Defined.

(** The logged-in flag is only ever set by the update that sets the
    access expiration. *)
Lemma logged_in_has_expiration_reachable td_config store single w0 self w :
  reachable td_config store single w0 self w →
  logged_in_state self = true →
  is_Some (access_expiration (_tokens self)).
Proof.
  apply (inv_reachable
           (λ s _, logged_in_state s = true →
                   is_Some (access_expiration (_tokens s)))); done.
Qed.

(** X2: in every state the public interface reaches, a manager that is
    logged in holds an access expiration: the flag is set only by the
    update that sets the expiration, and no method unsets an expiration.
    So [__repr__] returns on it: [False], logging the manager out, when
    the expiration is before the time read, and [True] otherwise. *)
Theorem logged_in_manager_holds_an_expiration td_config store single w0 self w :
  reachable td_config store single w0 self w →
  logged_in_state self = true →
  ∃ e, access_expiration (_tokens self) = Some e ∧
       __repr__ self w =
       if bool_decide (e < clock w (ticks w))%Z
       then MkRun (Return "False") (set_logged_in_state false self) (tick w)
       else MkRun (Return "True") self (tick w).
Proof.
  intros Hreach Hl.
  destruct (logged_in_has_expiration_reachable _ _ _ _ _ _ Hreach Hl) as [e He].
  exists e. split; [exact He|].
  rewrite repr_run, He. cbv zeta.
  destruct (bool_decide (e < _)%Z); simpl; [done|]. by rewrite Hl.
Qed.

Lemma logged_in_manager_holds_an_expiration_witness :
  let w0 := world_of seconds_clock granting ∅ in
  let r := __init__ sample_config true false w0 in
  reachable sample_config true false w0 (obj r) (env r) ∧
  logged_in_state (obj r) = true ∧
  access_expiration (_tokens (obj r)) = Some (timedelta_seconds 1801) ∧
  __repr__ (obj r) (env r) = MkRun (Return "True") (obj r) (tick (env r)).
Proof.
  cbv zeta.
  assert (reachable sample_config true false (world_of seconds_clock granting ∅)
            (obj (__init__ sample_config true false (world_of seconds_clock granting ∅)))
            (env (__init__ sample_config true false (world_of seconds_clock granting ∅))))
    as Hreach by (apply reach_init; vm_compute; reflexivity).
  assert (logged_in_state
            (obj (__init__ sample_config true false (world_of seconds_clock granting ∅)))
          = true) as Hl by (vm_compute; reflexivity).
  assert (access_expiration
            (_tokens (obj (__init__ sample_config true false
                             (world_of seconds_clock granting ∅))))
          = Some (timedelta_seconds 1801)) as Hexp by (vm_compute; reflexivity).
  split; [exact Hreach|]. split; [exact Hl|]. split; [exact Hexp|].
  destruct (logged_in_manager_holds_an_expiration _ _ _ _ _ _ Hreach Hl)
    as (e & He & Hrepr).
  rewrite Hexp in He. injection He as <-.
  rewrite Hrepr. rewrite bool_decide_eq_false_2; [reflexivity|].
  vm_compute. discriminate.
Defined.

(** X3: [headers] and the [access_token] property go through the same
    [_authenticate] and agree: they leave the same object and the same
    world; [headers] raises when the property does, with the same
    exception; [headers] returns [(None, None)] exactly when the property
    returns [False]; and where the property returns a token, [headers]
    raises [ValueError] for an endpoint that [urllib.parse] refuses, and
    for every other endpoint returns the URL with a mapping in which
    [Authorization] is [Bearer] followed by the token the property
    returns. *)
Theorem headers_agrees_with_access_token endpoint mode self w :
  obj (headers endpoint mode self w) = obj (access_token_property self w) ∧
  env (headers endpoint mode self w) = env (access_token_property self w) ∧
  match result (access_token_property self w) with
  | Raise e => result (headers endpoint mode self w) = Raise e
  | Return PyFalse => result (headers endpoint mode self w) = Return (None, None)
  | Return (Token tok) =>
      match resolve_endpoint endpoint with
      | None => result (headers endpoint mode self w) = Raise ValueError
      | Some u =>
          ∃ hdrs,
            result (headers endpoint mode self w) = Return (Some u, Some hdrs) ∧
            hdrs !! "Authorization" = Some ("Bearer " +:+ format_value tok)
      end
  end.
Proof.
  rewrite headers_run_any, access_token_property_run. cbv zeta.
  destruct (result (_authenticate self w)); simpl; [|done].
  destruct (logged_in_state (obj (_authenticate self w))); simpl; [|done].
  repeat split; try done.
  destruct (resolve_endpoint endpoint) as [u|]; [|done].
  eexists. split; [done|]. apply merged_headers_authorization.
Qed.

(** ** What a manager writes *)

(** X4: a manager built with [store_refresh_token=False] never writes a
    file, whatever the replies of the endpoint. *)
Theorem persistence_disabled_writes_nothing td_config single w0 self w :
  reachable td_config false single w0 self w →
  dumped w = dumped w0.
Proof.
  intros Hreach.
  apply (inv_reachable
           (λ s v, _store_refresh_token s = false ∧ dumped v = dumped w0))
    in Hreach; try done.
  - by destruct Hreach.
  - intros tok s v [Hs Hd] _. rewrite Hs. by split.
Qed.

Lemma persistence_disabled_writes_nothing_witness :
  let w0 := world_of seconds_clock granting ∅ in
  let r := __init__ sample_config false false w0 in
  reachable sample_config false false w0 (obj r) (env r) ∧
  refresh_token (_tokens (obj r)) = Some "R" ∧
  dumped (env r) = [].
Proof.
  cbv zeta.
  assert (reachable sample_config false false (world_of seconds_clock granting ∅)
            (obj (__init__ sample_config false false (world_of seconds_clock granting ∅)))
            (env (__init__ sample_config false false (world_of seconds_clock granting ∅))))
    as Hreach by (apply reach_init; vm_compute; reflexivity).
  split; [exact Hreach|]. split; [vm_compute; reflexivity|].
  exact (persistence_disabled_writes_nothing _ _ _ _ _ Hreach).
Defined.

(** X5: what a manager built with [store_refresh_token=True] writes is
    only ever the record of its user, holding a refresh token and an
    expiration, and the record it wrote last is the refresh token and the
    expiration it holds in memory. *)
Theorem written_record_is_the_one_in_memory td_config single w0 self w :
  reachable td_config true single w0 self w →
  ∃ new, dumped w = new ++ dumped w0 ∧
         Forall (record_of td_config) new ∧
         latest_record_in_memory self new.
Proof.
  intros Hreach.
  apply (inv_reachable
           (λ s v, _td_config s = td_config ∧ _store_refresh_token s = true ∧
                   ∃ new, dumped v = new ++ dumped w0 ∧
                          Forall (record_of td_config) new ∧
                          latest_record_in_memory s new))
    in Hreach; try done.
  - by destruct Hreach as (_ & _ & ?).
  - intros tok s v (Hc & Hs & new & Hnew & Hall & Hlast) _.
    rewrite Hs, Hc. repeat split; try done.
    eexists (_ :: new). simpl. rewrite Hnew. split; [done|]. split; [|done].
    constructor; [|done]. split; [done|]. by eexists _, _.
  - repeat split. by exists [].
  - intros tok exp _ _ _. repeat split. by exists [].
Qed.

Lemma written_record_is_the_one_in_memory_witness :
  let w0 := world_of seconds_clock granting ∅ in
  let r := __init__ sample_config true false w0 in
  reachable sample_config true false w0 (obj r) (env r) ∧
  dumped (env r)
    = [("bobrefreshtoken.pickle", Pickle (Some "R") (Some (timedelta_seconds 7776000)))] ∧
  ∃ new, dumped (env r) = new ++ [] ∧
         Forall (record_of sample_config) new ∧
         latest_record_in_memory (obj r) new.
Proof.
  cbv zeta.
  assert (reachable sample_config true false (world_of seconds_clock granting ∅)
            (obj (__init__ sample_config true false (world_of seconds_clock granting ∅)))
            (env (__init__ sample_config true false (world_of seconds_clock granting ∅))))
    as Hreach by (apply reach_init; vm_compute; reflexivity).
  split; [exact Hreach|]. split; [vm_compute; reflexivity|].
  exact (written_record_is_the_one_in_memory _ _ _ _ _ Hreach).
Defined.

(** ** The requests a manager posts *)

Lemma code_request_well_formed c single code :
  well_formed_request c single
    (access_code_request (if negb single then Some "offline" else None) code c).
Proof.
  unfold well_formed_request. repeat split. right.
  repeat split. by destruct single.
Qed.

Lemma refresh_request_well_formed c single tok :
  well_formed_request c single (refresh_request tok c).
Proof. unfold well_formed_request. repeat split. by left. Qed.

Lemma get_access_token_loop_requests n self w :
  ∃ codes,
    sent (env (_get_access_token_loop n
                 (if negb (_is_single_access self) then Some "offline" else None) self w))
      = codes ++ sent w ∧
    length codes ≤ n ∧
    Forall (λ rq, is_code_grant rq ∧
                  well_formed_request (_td_config self) (_is_single_access self) rq) codes.
Proof.
  revert self w. induction n as [|n IH]; intros self w.
  { exists []. by repeat split. }
  rewrite get_access_token_loop_turn. cbv zeta.
  assert (is_code_grant
            (turn_request (if negb (_is_single_access self) then Some "offline" else None)
               self w) ∧
          well_formed_request (_td_config self) (_is_single_access self)
            (turn_request (if negb (_is_single_access self) then Some "offline" else None)
               self w)) as Hwf.
  { split; [done|]. apply code_request_well_formed. }
  destruct (bool_decide (status_code _ = _)).
  - eexists [_]. rewrite grant_step_sent, turn_world_sent.
    repeat split; simpl; [lia|]. by constructor.
  - destruct (IH (set_logged_in_state false self)
                (turn_world (if negb (_is_single_access self) then Some "offline" else None)
                   self w)) as (codes & Hcodes & Hlen & Hall).
    cbn [_is_single_access _td_config set_logged_in_state] in Hcodes, Hall.
    eexists (codes ++ [_]).
    rewrite Hcodes, turn_world_sent, <- app_assoc. repeat split.
    + rewrite length_app. simpl. lia.
    + apply Forall_app. split; [done|]. by constructor.
Qed.

Lemma get_access_token_requests self w :
  call_requests (_td_config self) (_is_single_access self) w
    (env (_get_access_token max_retries_default self w)).
Proof.
  rewrite get_access_token_run.
  destruct (get_access_token_loop_requests max_retries_default self w)
    as (codes & Hcodes & Hlen & Hall).
  exists codes, []. split; [exact Hcodes|]. split; [exact Hlen|].
  split; [simpl; lia|]. by split.
Qed.

Lemma update_access_token_sent tr self w :
  sent (env (_update_access_token tr self w)) = sent w.
Proof. rewrite update_access_token_run. by destruct (tr !! "access_token"). Qed.

Lemma call_requests_none c single w w' :
  sent w' = sent w → call_requests c single w w'.
Proof.
  intros Hs. exists [], []. split; [exact Hs|].
  split; [simpl; lia|]. split; [simpl; lia|]. by split.
Qed.

Lemma call_requests_same_start c single w0 w w' :
  sent w = sent w0 → call_requests c single w w' → call_requests c single w0 w'.
Proof.
  intros Hs (codes & refreshes & Hsent & ?). exists codes, refreshes.
  by rewrite <- Hs.
Qed.

Lemma refresh_access_token_requests self w :
  call_requests (_td_config self) (_is_single_access self) w
    (env (_refresh_access_token self w)).
Proof.
  rewrite refresh_access_token_run.
  destruct (refresh_expiration (_tokens self)) as [e|]; [|by apply call_requests_none].
  destruct (bool_decide (e - _ < _)%Z).
  { apply (call_requests_same_start _ _ w (tick w)); [done|].
    apply get_access_token_requests. }
  cbv zeta.
  destruct (bool_decide (status_code _ = _)).
  - exists [], [refresh_request (refresh_token (_tokens self)) (_td_config self)].
    rewrite update_access_token_sent. repeat split; simpl; try lia; try done.
    constructor; [|done]. split; [done|]. apply refresh_request_well_formed.
  - rewrite get_access_token_run.
    destruct (get_access_token_loop_requests max_retries_default
                (set_logged_in_state false self)
                (posted (refresh_request (refresh_token (_tokens self)) (_td_config self))
                   (tick w))) as (codes & Hcodes & Hlen & Hall).
    cbn [_is_single_access _td_config set_logged_in_state] in Hcodes, Hall.
    cbn [sent posted tick] in Hcodes.
    exists codes, [refresh_request (refresh_token (_tokens self)) (_td_config self)].
    repeat split; simpl; try done.
    constructor; [|done]. split; [done|]. apply refresh_request_well_formed.
Qed.

Lemma authenticate_requests self w :
  call_requests (_td_config self) (_is_single_access self) w (env (_authenticate self w)).
Proof.
  destruct (access_expiration (_tokens self)) as [e|] eqn:He;
    [|rewrite authenticate_unset by done; by apply call_requests_none].
  destruct (_is_single_access self) eqn:Hs.
  - rewrite (authenticate_single _ _ e) by done.
    destruct (bool_decide (e - timedelta_seconds 30 < _)%Z).
    { apply (call_requests_same_start _ _ w (tick w)); [done|].
      rewrite <- Hs. apply get_access_token_requests. }
    destruct (bool_decide _).
    + apply (call_requests_same_start _ _ w (tick (tick w))); [done|].
      rewrite <- Hs. apply refresh_access_token_requests.
    + by apply call_requests_none.
  - rewrite (authenticate_normal _ _ e) by done.
    destruct (bool_decide _).
    + apply (call_requests_same_start _ _ w (tick w)); [done|].
      rewrite <- Hs. apply refresh_access_token_requests.
    + by apply call_requests_none.
Qed.

Lemma repr_keeps_the_world_but_the_clock self w :
  sent (env (__repr__ self w)) = sent w ∧
  visited (env (__repr__ self w)) = visited w ∧
  fs (env (__repr__ self w)) = fs w ∧
  dumped (env (__repr__ self w)) = dumped w ∧
  _tokens (obj (__repr__ self w)) = _tokens self.
Proof.
  rewrite repr_run.
  destruct (access_expiration (_tokens self)) as [e|]; [|done]. cbv zeta.
  by destruct (bool_decide _).
Qed.

Lemma after_call_requests c self w :
  call_requests (_td_config self) (_is_single_access self) w (after_call c self w).2.
Proof.
  destruct c as [endpoint mode| |]; simpl.
  - rewrite headers_run_any. cbv zeta.
    pose proof (authenticate_requests self w).
    by destruct (result (_authenticate self w)).
  - rewrite access_token_property_run. cbv zeta.
    pose proof (authenticate_requests self w).
    by destruct (result (_authenticate self w)).
  - apply call_requests_none. apply repr_keeps_the_world_but_the_clock.
Qed.

Lemma initialize_authentication_requests td_config store single w0 :
  call_requests td_config single w0
    (env (_initialize_authentication (fresh td_config store single) w0)).
Proof.
  unfold _initialize_authentication. rewrite run_bind. simpl.
  rewrite run_bind. simpl.
  destruct (bool_decide (is_Some _)).
  2:{ apply (get_access_token_requests (fresh td_config store single) w0). }
  destruct (negb store || single) eqn:Hflags.
  - rewrite run_bind. unfold os_remove.
    destruct (fs w0 !! normpath (dot_pickle_name td_config)); simpl;
      [|by apply call_requests_none].
    eapply call_requests_same_start;
      [|apply (get_access_token_requests (fresh td_config store single))]. done.
  - rewrite run_bind. unfold pickle_load. simpl.
    destruct (fs w0 !! normpath (pickle_name td_config)) as [[tok exp|]|]; simpl;
      try by apply call_requests_none.
    rewrite run_bind. simpl.
    apply (refresh_access_token_requests
             (set_tokens (set_refresh tok exp (_tokens (fresh td_config store single)))
                (fresh td_config store single)) w0).
Qed.

Lemma init_requests td_config store single w0 :
  call_requests td_config single w0 (env (__init__ td_config store single w0)).
Proof.
  pose proof (initialize_authentication_requests td_config store single w0) as Hinit.
  unfold __init__. rewrite run_bind.
  destruct (result (_initialize_authentication _ _)); [|done].
  rewrite run_bind. simpl. done.
Qed.

(** X6: one call posts at most four requests.  The constructor, [headers]
    and the [access_token] property post at most one refresh grant and,
    after it, at most three authorization-code grants; [__repr__] posts
    none, opens no browser, touches no file and no token. *)
Theorem a_call_posts_at_most_four_requests :
  (∀ td_config store single w0,
     call_requests td_config single w0 (env (__init__ td_config store single w0))) ∧
  (∀ endpoint mode self w,
     call_requests (_td_config self) (_is_single_access self) w
       (env (headers endpoint mode self w))) ∧
  (∀ self w,
     call_requests (_td_config self) (_is_single_access self) w
       (env (access_token_property self w))) ∧
  (∀ self w,
     sent (env (__repr__ self w)) = sent w ∧
     visited (env (__repr__ self w)) = visited w ∧
     fs (env (__repr__ self w)) = fs w ∧
     dumped (env (__repr__ self w)) = dumped w ∧
     _tokens (obj (__repr__ self w)) = _tokens self).
Proof.
  split; [exact init_requests|]. split; [|split].
  - intros endpoint mode self w. apply (after_call_requests (CallHeaders endpoint mode)).
  - intros self w. apply (after_call_requests CallAccessToken).
  - exact repr_keeps_the_world_but_the_clock.
Qed.

(** X7: every request a manager has posted since its construction began
    is well formed: it went to the token endpoint, form-encoded, with the
    timeout of five seconds and the client id of the configuration, and
    it is a refresh grant or an authorization-code grant that carries the
    redirect URI and asks for offline access exactly when the manager is
    not single-access. *)
Theorem every_request_is_well_formed td_config store single w0 self w :
  reachable td_config store single w0 self w →
  ∃ new, posted_since w0 w new ∧ Forall (well_formed_request td_config single) new.
Proof.
  unfold posted_since.
  induction 1 as [Hret|c self w Hreach IH|f self w Hreach IH].
  - destruct (init_requests td_config store single w0)
      as (codes & refreshes & Hsent & _ & _ & Hcodes & Hrefreshes).
    exists (codes ++ refreshes). rewrite Hsent, <- app_assoc. split; [done|].
    apply Forall_app. split; (eapply Forall_impl; [eassumption|]); by intros ? [_ ?].
  - destruct IH as (new & Hnew & Hall).
    destruct (setup_reachable _ _ _ _ _ _ Hreach) as (Hc & _ & Hs).
    destruct (after_call_requests c self w)
      as (codes & refreshes & Hsent & _ & _ & Hcodes & Hrefreshes).
    rewrite Hc, Hs in Hcodes, Hrefreshes.
    exists (codes ++ refreshes ++ new). rewrite Hsent, Hnew, <- !app_assoc.
    split; [done|].
    rewrite !Forall_app. repeat split; [| |done];
      (eapply Forall_impl; [eassumption|]); by intros ? [_ ?].
  - exact IH.
Qed.

Lemma every_request_is_well_formed_witness :
  let w0 := world_of seconds_clock granting ∅ in
  let r := __init__ sample_config true false w0 in
  reachable sample_config true false w0 (obj r) (env r) ∧
  length (sent (env r)) = 1 ∧
  ∃ new, posted_since w0 (env r) new ∧
         Forall (well_formed_request sample_config false) new.
Proof.
  cbv zeta.
  assert (reachable sample_config true false (world_of seconds_clock granting ∅)
            (obj (__init__ sample_config true false (world_of seconds_clock granting ∅)))
            (env (__init__ sample_config true false (world_of seconds_clock granting ∅))))
    as Hreach by (apply reach_init; vm_compute; reflexivity).
  split; [exact Hreach|]. split; [vm_compute; reflexivity|].
  exact (every_request_is_well_formed _ _ _ _ _ _ Hreach).
Defined.

(** ** What authenticate-before-use leaves *)

Lemma renewed_during_earlier w0 w self' w' :
  clock w = clock w0 → ticks w0 ≤ ticks w →
  renewed_during w self' w' → renewed_during w0 self' w'.
Proof.
  intros Hc Ht (Hl & k & Hk & He). split; [done|].
  exists k. rewrite <- Hc. split; [lia|done].
Qed.

Lemma update_access_token_renews tr self w :
  result (_update_access_token tr self w) = Return tt →
  renewed_during w (obj (_update_access_token tr self w))
    (env (_update_access_token tr self w)).
Proof.
  rewrite update_access_token_run.
  destruct (tr !! "access_token"); [|done]. intros _.
  split; [done|]. exists (ticks w). simpl. split; [lia|done].
Qed.

Lemma grant_step_renews tr self w :
  let r := ((if negb (_is_single_access self)
             then _update_refresh_token tr else mret tt);;
            _update_access_token tr) self w in
  result r = Return tt → renewed_during w (obj r) (env r).
Proof.
  cbv zeta. rewrite run_bind.
  assert (clock (env ((if negb (_is_single_access self)
                       then _update_refresh_token tr else mret tt) self w)) = clock w ∧
          ticks w ≤ ticks (env ((if negb (_is_single_access self)
                                  then _update_refresh_token tr else mret tt) self w)))
    as [Hc Ht].
  { destruct (_is_single_access self); simpl; [done|].
    rewrite update_refresh_token_run.
    destruct (tr !! "refresh_token"); [|done].
    destruct (_store_refresh_token self); simpl; split; (done || lia). }
  destruct ((if negb (_is_single_access self)
             then _update_refresh_token tr else mret tt) self w) as [[[]|] self1 w1];
    simpl in *; [|done].
  intros Hr. apply (renewed_during_earlier w w1); [done..|].
  by apply update_access_token_renews.
Qed.

(** A full authentication that returns has logged the manager out, or has
    issued an access token. *)
Lemma get_access_token_loop_renews n at_ self w :
  n ≠ 0 →
  let r := _get_access_token_loop n at_ self w in
  result r = Return tt →
  logged_in_state (obj r) = false ∨ renewed_during w (obj r) (env r).
Proof.
  revert self w. induction n as [|n IH]; intros self w Hn; [done|]. cbv zeta.
  rewrite get_access_token_loop_turn. cbv zeta.
  destruct (turn_world_rest at_ self w) as (Hc & Ht & _).
  destruct (bool_decide (status_code _ = _)).
  - intros Hr. right.
    apply (renewed_during_earlier w (turn_world at_ self w)); [done|lia|].
    by apply grant_step_renews.
  - destruct n as [|n]; [by left|].
    intros Hr.
    destruct (IH (set_logged_in_state false self) (turn_world at_ self w)) as [|Hren];
      [done|done|by left|right].
    apply (renewed_during_earlier w (turn_world at_ self w)); [done|lia|done].
Qed.

Lemma get_access_token_renews self w :
  result (_get_access_token max_retries_default self w) = Return tt →
  logged_in_state (obj (_get_access_token max_retries_default self w)) = false ∨
  renewed_during w (obj (_get_access_token max_retries_default self w))
    (env (_get_access_token max_retries_default self w)).
Proof.
  rewrite get_access_token_run.
  by apply (get_access_token_loop_renews max_retries_default).
Qed.

Lemma refresh_access_token_renews self w :
  let r := _refresh_access_token self w in
  result r = Return tt →
  logged_in_state (obj r) = false ∨ renewed_during w (obj r) (env r).
Proof.
  cbv zeta. rewrite refresh_access_token_run.
  destruct (refresh_expiration (_tokens self)) as [e|]; [|done].
  destruct (bool_decide (e - _ < _)%Z).
  { intros Hr.
    destruct (get_access_token_renews self (tick w) Hr) as [|Hren]; [by left|right].
    apply (renewed_during_earlier w (tick w)); simpl; [done|lia|done]. }
  cbv zeta.
  destruct (bool_decide (status_code _ = _)).
  - intros Hr. right.
    eapply (renewed_during_earlier w); [| |by apply update_access_token_renews];
      simpl; [done|lia].
  - intros Hr.
    destruct (get_access_token_renews _ _ Hr) as [|Hren]; [by left|right].
    eapply (renewed_during_earlier w); [| |exact Hren]; simpl; [done|lia].
Qed.

Lemma renewed_is_valid w self' w' :
  renewed_during w self' w' →
  ∃ k e', ticks w ≤ k < ticks w' ∧
          access_expiration (_tokens self') = Some e' ∧
          (clock w k + timedelta_seconds 5 ≤ e')%Z.
Proof.
  intros (_ & k & Hk & He). eexists k, _. split; [done|]. split; [exact He|].
  unfold timedelta_seconds, ACCESS_DURATION. lia.
Qed.

(** X8: what [_authenticate] ensures, as its docstring says.  When it
    returns and the manager is logged in, the access token the manager
    holds had at least five seconds left at a reading of the clock taken
    during the call: either the token was kept because the test found it
    so, or it was issued during the call, for 1800 seconds.  The same
    holds of a token that the [access_token] property returns. *)
Theorem authenticate_leaves_a_token_with_time_left self w :
  (result (_authenticate self w) = Return tt →
   logged_in_state (obj (_authenticate self w)) = true →
   ∃ k e', ticks w ≤ k < ticks (env (_authenticate self w)) ∧
           access_expiration (_tokens (obj (_authenticate self w))) = Some e' ∧
           (clock w k + timedelta_seconds 5 ≤ e')%Z) ∧
  (∀ tok, result (access_token_property self w) = Return (Token tok) →
   ∃ k e', ticks w ≤ k < ticks (env (access_token_property self w)) ∧
           access_expiration (_tokens (obj (access_token_property self w))) = Some e' ∧
           (clock w k + timedelta_seconds 5 ≤ e')%Z).
Proof.
  assert (result (_authenticate self w) = Return tt →
          logged_in_state (obj (_authenticate self w)) = true →
          ∃ k e', ticks w ≤ k < ticks (env (_authenticate self w)) ∧
                  access_expiration (_tokens (obj (_authenticate self w))) = Some e' ∧
                  (clock w k + timedelta_seconds 5 ≤ e')%Z) as Hauth.
  { destruct (access_expiration (_tokens self)) as [e|] eqn:He;
      [|by rewrite authenticate_unset].
    destruct (_is_single_access self) eqn:Hs.
    - rewrite (authenticate_single _ _ e) by done.
      destruct (bool_decide (e - timedelta_seconds 30 < _)%Z).
      { intros Hr Hl.
        destruct (get_access_token_renews self (tick w) Hr) as [|Hren]; [congruence|].
        apply renewed_is_valid.
        apply (renewed_during_earlier w (tick w)); simpl; [done|lia|done]. }
      case_bool_decide as Hexp.
      + intros Hr Hl.
        destruct (refresh_access_token_renews self (tick (tick w)) Hr) as [|Hren];
          [congruence|].
        apply renewed_is_valid.
        apply (renewed_during_earlier w (tick (tick w))); simpl; [done|lia|done].
      + intros _ _. simpl. exists (S (ticks w)), e.
        split; [lia|]. split; [done|lia].
    - rewrite (authenticate_normal _ _ e) by done.
      case_bool_decide as Hexp.
      + intros Hr Hl.
        destruct (refresh_access_token_renews self (tick w) Hr) as [|Hren];
          [congruence|].
        apply renewed_is_valid.
        apply (renewed_during_earlier w (tick w)); simpl; [done|lia|done].
      + intros _ _. simpl. exists (ticks w), e.
        split; [lia|]. split; [done|lia]. }
  split; [exact Hauth|].
  intros tok. rewrite access_token_property_run. cbv zeta.
  destruct (result (_authenticate self w)) as [[]|]; [|done]. simpl.
  destruct (logged_in_state (obj (_authenticate self w))); [|done].
  intros _. by apply Hauth.
Qed.

Lemma authenticate_leaves_a_token_with_time_left_witness :
  let self := sample_manager false 4 172800 in
  let w := world_of seconds_clock granting ∅ in
  result (_authenticate self w) = Return tt ∧
  logged_in_state (obj (_authenticate self w)) = true ∧
  ∃ k e', ticks w ≤ k < ticks (env (_authenticate self w)) ∧
          access_expiration (_tokens (obj (_authenticate self w))) = Some e' ∧
          (clock w k + timedelta_seconds 5 ≤ e')%Z.
Proof.
  cbv zeta.
  assert (result (_authenticate (sample_manager false 4 172800)
                    (world_of seconds_clock granting ∅)) = Return tt) as Hr
    by (vm_compute; reflexivity).
  assert (logged_in_state (obj (_authenticate (sample_manager false 4 172800)
                                  (world_of seconds_clock granting ∅))) = true) as Hl
    by (vm_compute; reflexivity).
  split; [exact Hr|]. split; [exact Hl|].
  exact (proj1 (authenticate_leaves_a_token_with_time_left _ _) Hr Hl).
Defined.

(** ** The replies of the endpoint *)

Lemma get_access_token_loop_stops k n at_ self w :
  k < n →
  endpoint_fails k w →
  (∀ rq, status_code (token_endpoint w (length (sent w) + k) rq) = 200%Z) →
  length (sent (env (_get_access_token_loop n at_ self w))) = length (sent w) + S k.
Proof.
  revert n self w. induction k as [|k IH]; intros n self w Hk Hfail Hok.
  - destruct n as [|n]; [lia|].
    rewrite get_access_token_loop_turn. cbv zeta. rewrite turn_reply.
    rewrite bool_decide_eq_true_2 by (by rewrite <- (Nat.add_0_r (length (sent w)))).
    rewrite grant_step_sent, turn_world_sent. simpl. lia.
  - destruct n as [|n]; [lia|].
    rewrite get_access_token_loop_turn. cbv zeta. rewrite turn_reply.
    rewrite bool_decide_eq_false_2 by (apply Hfail; lia).
    destruct (turn_world_rest at_ self w) as (_ & _ & He & _).
    pose proof (turn_world_sent at_ self w) as Hs.
    rewrite (IH n (set_logged_in_state false self) (turn_world at_ self w)).
    + rewrite Hs. simpl. lia.
    + lia.
    + intros i rq Hi. rewrite He. apply Hfail. rewrite Hs in Hi. simpl in Hi. lia.
    + intros rq. rewrite He, Hs.
      replace (length (turn_request at_ self w :: sent w) + k)
        with (length (sent w) + S k) by (simpl; lia).
      apply Hok.
Qed.

(** X9: the full authentication stops at the first reply that is 200:
    after [k] failures, with [k] less than three, and a 200 reply to the
    next exchange, it has posted [k + 1] requests, whether or not the
    reply could be used. *)
Theorem full_authentication_stops_at_the_first_200 k self w :
  k < 3 →
  endpoint_fails k w →
  (∀ rq, status_code (token_endpoint w (length (sent w) + k) rq) = 200%Z) →
  length (sent (env (_get_access_token max_retries_default self w)))
    = length (sent w) + S k.
Proof.
  intros Hk Hfail Hok. rewrite get_access_token_run.
  by apply get_access_token_loop_stops.
Qed.

Lemma full_authentication_stops_at_the_first_200_witness :
  let self := fresh sample_config true false in
  let w := world_of seconds_clock (λ n rq, if (n <? 2)%nat then down n rq else granting n rq) ∅ in
  endpoint_fails 2 w ∧
  logged_in_state (obj (_get_access_token max_retries_default self w)) = true ∧
  length (sent (env (_get_access_token max_retries_default self w))) = 3.
Proof.
  cbv zeta.
  set (w := world_of seconds_clock
              (λ n rq, if (n <? 2)%nat then down n rq else granting n rq) ∅).
  assert (endpoint_fails 2 w) as Hfail.
  { intros i rq Hi. simpl in *.
    destruct i as [|[|i]]; [discriminate..|lia]. }
  split; [exact Hfail|]. split; [vm_compute; reflexivity|].
  apply (full_authentication_stops_at_the_first_200 2 (fresh sample_config true false) w);
    [lia|exact Hfail|].
  intros rq. reflexivity.
Defined.

(** X10: a 200 reply without an [access_token] makes the full
    authentication raise [KeyError] after that one exchange, with no
    retry.  The logged-in flag, the access token and its expiration stay
    as they were; but when the manager is not single-access and the reply
    carries a [refresh_token], that token and its expiration are already
    stored, and written to the file when persistence is enabled. *)
Theorem reply_without_access_token_raises self w :
  let at_ := if negb (_is_single_access self) then Some "offline" else None in
  let rq := turn_request at_ self w in
  let rp := token_endpoint w (length (sent w)) rq in
  status_code rp = 200%Z →
  json rp !! "access_token" = None →
  let r := _get_access_token max_retries_default self w in
  result r = Raise KeyError ∧
  sent (env r) = rq :: sent w ∧
  logged_in_state (obj r) = logged_in_state self ∧
  access_token (_tokens (obj r)) = access_token (_tokens self) ∧
  access_expiration (_tokens (obj r)) = access_expiration (_tokens self) ∧
  (_is_single_access self = false →
   ∀ rtok, json rp !! "refresh_token" = Some rtok →
     refresh_token (_tokens (obj r)) = Some rtok ∧
     refresh_expiration (_tokens (obj r))
       = Some (clock w (ticks w) + timedelta_seconds REFRESH_DURATION)%Z ∧
     (_store_refresh_token self = true →
      dumped (env r)
        = (normpath (pickle_name (_td_config self)),
           Pickle (Some rtok)
             (Some (clock w (ticks w) + timedelta_seconds REFRESH_DURATION)%Z))
          :: dumped w)).
Proof.
  intros at_ rq rp Hok Hkey r. subst r.
  rewrite get_access_token_run. fold at_.
  unfold max_retries_default. rewrite get_access_token_loop_turn. cbv zeta.
  rewrite turn_reply. fold rq rp.
  rewrite bool_decide_eq_true_2 by done.
  unfold turn_world. fold rq.
  assert (∃ v, env (_get_access_code self w) = v ∧ clock v = clock w ∧
               ticks v = ticks w ∧ sent v = sent w ∧ dumped v = dumped w)
    as (v & -> & Hc & Ht & Hs & Hd).
  { rewrite get_access_code_run. destruct (bool_decide _); by eexists. }
  rewrite run_bind.
  destruct (_is_single_access self) eqn:Hsingle; cbn [negb].
  - cbn [mret M_ret ret result obj env].
    rewrite update_access_token_run, Hkey. cbn [result obj env sent posted].
    rewrite Hs. by repeat split.
  - rewrite update_refresh_token_run.
    destruct (json rp !! "refresh_token") as [rtok|] eqn:Hrtok;
      cbn [result obj env sent posted].
    + rewrite update_access_token_run, Hkey. cbn [result obj env].
      split; [done|]. split.
      { destruct (_store_refresh_token self); simpl; by rewrite Hs. }
      split; [done|]. split; [done|]. split; [done|].
      intros _ rtok' [= <-]. cbn [posted clock ticks]. rewrite Hc, Ht.
      split; [done|]. split; [done|].
      intros ->. simpl. by rewrite Hd.
    + rewrite Hs. split; [done|]. split; [done|]. split; [done|].
      split; [done|]. split; [done|]. by intros _ rtok' [=].
Qed.

Lemma reply_without_access_token_raises_witness :
  let self := fresh sample_config true false in
  let w := world_of seconds_clock (λ _ _, reply 200 [("refresh_token", "R")]) ∅ in
  let r := _get_access_token max_retries_default self w in
  result r = Raise KeyError ∧
  logged_in_state (obj r) = false ∧
  refresh_token (_tokens (obj r)) = Some "R" ∧
  length (dumped (env r)) = 1.
Proof.
  cbv zeta.
  destruct (reply_without_access_token_raises (fresh sample_config true false)
              (world_of seconds_clock (λ _ _, reply 200 [("refresh_token", "R")]) ∅)
              eq_refl eq_refl) as (Hr & _ & Hl & _ & _ & Hrefresh).
  destruct (Hrefresh eq_refl "R" eq_refl) as (Htok & _ & Hdump).
  split; [exact Hr|]. split; [exact Hl|]. split; [exact Htok|].
  rewrite (Hdump eq_refl). reflexivity.
Defined.

(** X11: a refresh that the endpoint refuses, followed by three refused
    exchanges, costs four requests and leaves the manager logged out with
    its tokens as they were, the stale access token and the refresh token
    included; nothing is written, and the method returns without
    raising. *)
Theorem refused_refresh_and_login_log_the_manager_out self w e :
  refresh_expiration (_tokens self) = Some e →
  ¬ (e - timedelta_days 1 < clock w (ticks w))%Z →
  endpoint_fails 4 w →
  let r := _refresh_access_token self w in
  result r = Return tt ∧
  obj r = set_logged_in_state false self ∧
  (∃ codes,
     sent (env r)
       = codes ++ refresh_request (refresh_token (_tokens self)) (_td_config self)
                  :: sent w ∧
     length codes = 3 ∧ Forall is_code_grant codes) ∧
  fs (env r) = fs w ∧ dumped (env r) = dumped w.
Proof.
  intros He Hfresh Hfail. cbv zeta.
  rewrite refresh_access_token_run, He.
  rewrite bool_decide_eq_false_2 by done. cbv zeta.
  rewrite bool_decide_eq_false_2 by (unfold reply_to; simpl; apply Hfail; lia).
  rewrite get_access_token_run.
  set (rq := refresh_request (refresh_token (_tokens self)) (_td_config self)).
  set (at_ := if negb _ then _ else _).
  destruct (get_access_token_loop_fails 3 at_ (set_logged_in_state false self)
              (posted rq (tick w))) as (Hr & Ho & Hf & Hd & _ & _ & _ & Hs).
  { intros i rq' Hi. simpl in *. apply Hfail. lia. }
  unfold max_retries_default. rewrite Hr, Ho, Hf, Hd.
  split; [done|]. split; [done|]. split; [|done].
  destruct (get_access_token_loop_posts 3 at_ (set_logged_in_state false self)
              (posted rq (tick w))) as (new & Hnew & _ & Hall).
  unfold posted_since in Hnew. exists new. split; [exact Hnew|]. split; [|done].
  rewrite Hnew, length_app in Hs. simpl in Hs. lia.
Qed.

Lemma refused_refresh_and_login_log_the_manager_out_witness :
  let self := sample_manager false 4 172800 in
  let w := world_of seconds_clock down ∅ in
  let r := _refresh_access_token self w in
  endpoint_fails 4 w ∧
  result r = Return tt ∧
  logged_in_state (obj r) = false ∧
  access_token (_tokens (obj r)) = Some "A" ∧
  length (sent (env r)) = 4.
Proof.
  cbv zeta.
  assert (endpoint_fails 4 (world_of seconds_clock down ∅)) as Hfail.
  { intros i rq _. simpl. discriminate. }
  assert (¬ (timedelta_seconds 172800 - timedelta_days 1
             < clock (world_of seconds_clock down ∅)
                 (ticks (world_of seconds_clock down ∅)))%Z) as Hfresh
    by (vm_compute; discriminate).
  destruct (refused_refresh_and_login_log_the_manager_out
              (sample_manager false 4 172800) (world_of seconds_clock down ∅)
              (timedelta_seconds 172800) eq_refl Hfresh Hfail)
    as (Hr & Ho & (codes & Hs & Hlen & _) & _).
  split; [exact Hfail|]. split; [exact Hr|].
  rewrite Ho. split; [reflexivity|]. split; [reflexivity|].
  rewrite Hs, length_app, Hlen. reflexivity.
Defined.

(** ** The browser *)

Lemma turn_without_chromedriver at_ self w :
  fs w !! normpath "chromedriver.exe" = None →
  visited (turn_world at_ self w) = visited w ∧
  form_get "code" (data (turn_request at_ self w)) = None.
Proof.
  intros Hfile. unfold turn_world, turn_request, returned.
  rewrite get_access_code_run, Hfile. done.
Qed.

Lemma turn_with_chromedriver at_ self w :
  is_Some (fs w !! normpath "chromedriver.exe") →
  visited (turn_world at_ self w) = auth_url (_td_config self) :: visited w ∧
  is_Some (form_get "code" (data (turn_request at_ self w))).
Proof.
  intros Hfile. unfold turn_world, turn_request, returned.
  rewrite get_access_code_run, bool_decide_eq_true_2 by done. simpl.
  split; [done|]. by eexists.
Qed.

Lemma grant_step_visited tr self w :
  visited (env (((if negb (_is_single_access self)
                  then _update_refresh_token tr else mret tt);;
                 _update_access_token tr) self w)) = visited w.
Proof.
  rewrite run_bind.
  assert (visited (env ((if negb (_is_single_access self)
                         then _update_refresh_token tr else mret tt) self w))
          = visited w) as Hs.
  { destruct (_is_single_access self); simpl; [done|].
    rewrite update_refresh_token_run.
    destruct (tr !! "refresh_token"); [|done].
    by destruct (_store_refresh_token self). }
  destruct ((if negb (_is_single_access self)
             then _update_refresh_token tr else mret tt) self w) as [[[]|] self' w'];
    simpl in *; [|done].
  rewrite update_access_token_run.
  by destruct (tr !! "access_token").
Qed.

(** Closes the side goals of the count of sessions and exchanges. *)
Ltac close_sessions :=
  repeat split;
  try done;
  try (by repeat constructor);
  try (by intros [? [=]]);
  try (rewrite !length_app; simpl; lia);
  try (apply Forall_app; split; [done|]; by repeat constructor).

Lemma get_access_token_loop_sessions n at_ self w :
  ∃ codes urls,
    sent (env (_get_access_token_loop n at_ self w)) = codes ++ sent w ∧
    visited (env (_get_access_token_loop n at_ self w)) = urls ++ visited w ∧
    (fs w !! normpath "chromedriver.exe" = None →
     urls = [] ∧ Forall (λ rq, form_get "code" (data rq) = None) codes) ∧
    (is_Some (fs w !! normpath "chromedriver.exe") →
     length urls = length codes ∧
     Forall (λ u, u = auth_url (_td_config self)) urls ∧
     Forall (λ rq, is_Some (form_get "code" (data rq))) codes).
Proof.
  revert self w. induction n as [|n IH]; intros self w.
  { exists [], []. by repeat split. }
  rewrite get_access_token_loop_turn. cbv zeta.
  destruct (turn_world_rest at_ self w) as (_ & _ & _ & Hf & _).
  pose proof (turn_world_sent at_ self w) as Hs.
  destruct (bool_decide (status_code _ = _)).
  - rewrite grant_step_sent, grant_step_visited, Hs.
    destruct (fs w !! normpath "chromedriver.exe") as [f|] eqn:Hfile.
    + destruct (turn_with_chromedriver at_ self w) as [Hv Hcode];
        [by rewrite Hfile|].
      exists [turn_request at_ self w], [auth_url (_td_config self)].
      rewrite Hv. close_sessions.
    + destruct (turn_without_chromedriver at_ self w Hfile) as [Hv Hcode].
      exists [turn_request at_ self w], [].
      rewrite Hv. close_sessions.
  - destruct (IH (set_logged_in_state false self) (turn_world at_ self w))
      as (codes & urls & Hcodes & Hurls & Hnone & Hsome).
    rewrite Hf in Hnone, Hsome. cbn [_td_config set_logged_in_state] in Hsome.
    rewrite Hcodes, Hurls, Hs.
    destruct (fs w !! normpath "chromedriver.exe") as [f|] eqn:Hfile.
    + destruct (turn_with_chromedriver at_ self w) as [Hv Hcode];
        [by rewrite Hfile|].
      destruct Hsome as (Hlen & Hu & Hc); [by eexists|].
      exists (codes ++ [turn_request at_ self w]),
             (urls ++ [auth_url (_td_config self)]).
      rewrite Hv, <- !app_assoc. close_sessions.
    + destruct (turn_without_chromedriver at_ self w Hfile) as [Hv Hcode].
      destruct Hnone as (-> & Hc); [done|].
      exists (codes ++ [turn_request at_ self w]), [].
      rewrite Hv, <- !app_assoc. close_sessions.
Qed.

(** X12: the browser in the full authentication.  When [chromedriver.exe]
    is not in the directory, no browser session is opened and every
    exchange is posted with the code [None]; when it is there, each
    exchange follows one browser session, opened on the authorization URL
    of the configuration, and carries a code. *)
Theorem full_authentication_opens_a_browser_per_exchange self w :
  let r := _get_access_token max_retries_default self w in
  ∃ codes urls,
    sent (env r) = codes ++ sent w ∧
    visited (env r) = urls ++ visited w ∧
    (fs w !! normpath "chromedriver.exe" = None →
     urls = [] ∧ Forall (λ rq, form_get "code" (data rq) = None) codes) ∧
    (is_Some (fs w !! normpath "chromedriver.exe") →
     length urls = length codes ∧
     Forall (λ u, u = auth_url (_td_config self)) urls ∧
     Forall (λ rq, is_Some (form_get "code" (data rq))) codes).
Proof. cbv zeta. rewrite get_access_token_run. apply get_access_token_loop_sessions. Qed.

Lemma full_authentication_opens_a_browser_per_exchange_witness :
  let self := fresh sample_config true false in
  let w := world_of seconds_clock down ∅ in
  let r := _get_access_token max_retries_default self w in
  fs w !! normpath "chromedriver.exe" = None ∧
  visited (env r) = [] ∧
  length (sent (env r)) = 3.
Proof.
  cbv zeta.
  destruct (full_authentication_opens_a_browser_per_exchange
              (fresh sample_config true false) (world_of seconds_clock down ∅))
    as (codes & urls & _ & Hv & Hnone & _).
  destruct (Hnone eq_refl) as [-> _].
  split; [reflexivity|]. split; [exact Hv|]. vm_compute. reflexivity.
Defined.

(** ** The record of the user at construction *)

Lemma get_access_token_keeps_files_unless_it_persists n self w :
  _store_refresh_token self = false ∨ _is_single_access self = true →
  fs (env (_get_access_token n self w)) = fs w ∧
  dumped (env (_get_access_token n self w)) = dumped w.
Proof.
  intros Hflags.
  apply (inv_get_access_token
           (λ s v, (_store_refresh_token s = false ∨ _is_single_access s = true) ∧
                   fs v = fs w ∧ dumped v = dumped w)); try done.
  intros tok s v ([Hs|Hs] & Hf & Hd) Hsingle; [|congruence].
  rewrite Hs. by repeat split; [left|..].
Qed.

(** X13: a record of the user found by a constructor that was told not to
    persist, or to be single-access, is removed and not read: the
    constructor goes to the full authentication, posts authorization-code
    grants only, and leaves the directory with the record deleted and
    nothing written. *)
Theorem unwanted_record_is_removed td_config store single w0 :
  is_Some (fs w0 !! normpath (dot_pickle_name td_config)) →
  store = false ∨ single = true →
  let r := __init__ td_config store single w0 in
  fs (env r) = delete (normpath (dot_pickle_name td_config)) (fs w0) ∧
  dumped (env r) = dumped w0 ∧
  ∃ codes, sent (env r) = codes ++ sent w0 ∧ length codes ≤ 3 ∧
           Forall is_code_grant codes.
Proof.
  intros Hfile Hflags. cbv zeta.
  set (w1 := with_fs (delete (normpath (dot_pickle_name td_config)) (fs w0))
               (dumped w0) w0).
  assert (_initialize_authentication (fresh td_config store single) w0 =
          _get_access_token max_retries_default (fresh td_config store single) w1) as Hinit.
  { unfold _initialize_authentication. rewrite run_bind. simpl.
    rewrite run_bind. simpl. rewrite bool_decide_eq_true_2 by done.
    replace (negb store || single) with true
      by (destruct Hflags as [-> | ->]; [done|by destruct store]).
    rewrite run_bind. unfold os_remove.
    by destruct Hfile as [f ->]. }
  destruct (get_access_token_keeps_files_unless_it_persists max_retries_default
              (fresh td_config store single) w1 Hflags) as [Hf Hd].
  destruct (get_access_token_loop_posts max_retries_default
              (if negb (_is_single_access (fresh td_config store single))
               then Some "offline" else None)
              (fresh td_config store single) w1) as (codes & Hcodes & Hlen & Hall).
  rewrite <- get_access_token_run in Hcodes. unfold posted_since in Hcodes.
  unfold __init__. rewrite run_bind, Hinit.
  destruct (result (_get_access_token _ _ _)).
  - rewrite run_bind. simpl. rewrite Hf, Hd. split; [done|]. split; [done|].
    by exists codes.
  - simpl. rewrite Hf, Hd. split; [done|]. split; [done|]. by exists codes.
Qed.

Lemma unwanted_record_is_removed_witness :
  let w0 := world_of seconds_clock granting
              {[ "bobrefreshtoken.pickle" := Pickle (Some "old") (Some 0%Z) ]} in
  let r := __init__ sample_config true true w0 in
  is_Some (fs w0 !! normpath (dot_pickle_name sample_config)) ∧
  logged_in_state (obj r) = true ∧
  fs (env r) !! "bobrefreshtoken.pickle" = None ∧
  dumped (env r) = [].
Proof.
  cbv zeta.
  set (w0 := world_of seconds_clock granting
               {[ "bobrefreshtoken.pickle" := Pickle (Some "old") (Some 0%Z) ]}).
  assert (is_Some (fs w0 !! normpath (dot_pickle_name sample_config))) as Hfile
    by (by eexists).
  destruct (unwanted_record_is_removed sample_config true true w0 Hfile (or_intror eq_refl))
    as (Hf & Hd & _).
  split; [exact Hfile|]. split; [vm_compute; reflexivity|].
  rewrite Hf. split; [|exact Hd]. apply lookup_delete_eq.
Defined.

(** X14: a record that is more than a day from its expiration logs the
    manager in without the browser.  With persistence enabled, normal
    mode, and a 200 reply to the refresh grant that carries an access
    token, the constructor returns a logged-in manager after the one
    request, the refresh grant of the recorded token: no browser session
    is opened and no file is written, and the refresh token and its
    expiration are the recorded ones. *)
Theorem fresh_record_logs_in_without_the_browser td_config w rtok rexp atok :
  fs w !! normpath (dot_pickle_name td_config) ≠ None →
  fs w !! normpath (pickle_name td_config) = Some (Pickle rtok (Some rexp)) →
  ¬ (rexp - timedelta_days 1 < clock w (ticks w))%Z →
  let rq := refresh_request rtok td_config in
  let rp := token_endpoint w (length (sent w)) rq in
  status_code rp = 200%Z →
  json rp !! "access_token" = Some atok →
  let r := __init__ td_config true false w in
  result r = Return tt ∧
  logged_in_state (obj r) = true ∧
  _tokens (obj r)
    = {| access_token := Some atok;
         access_expiration
           := Some (clock w (S (ticks w)) + timedelta_seconds ACCESS_DURATION)%Z;
         refresh_token := rtok;
         refresh_expiration := Some rexp |} ∧
  sent (env r) = rq :: sent w ∧
  visited (env r) = visited w ∧
  fs (env r) = fs w ∧ dumped (env r) = dumped w.
Proof.
  intros Hdot Hfile Hfresh rq rp Hok Htok. cbv zeta.
  unfold __init__. rewrite run_bind.
  rewrite (initialize_loads_the_record _ rtok (Some rexp)) by done.
  rewrite refresh_access_token_run.
  cbn [refresh_expiration refresh_token _tokens _td_config set_tokens set_refresh fresh].
  rewrite bool_decide_eq_false_2 by done. cbv zeta.
  change (reply_to (refresh_request rtok td_config) (tick w)) with rp.
  rewrite bool_decide_eq_true_2 by done.
  rewrite update_access_token_run, Htok.
  cbn [result obj env]. by rewrite run_bind.
Qed.

Lemma fresh_record_logs_in_without_the_browser_witness :
  let w := world_of seconds_clock granting
             {[ "bobrefreshtoken.pickle"
                  := Pickle (Some "R") (Some (timedelta_seconds 172800)) ]} in
  let r := __init__ sample_config true false w in
  result r = Return tt ∧
  logged_in_state (obj r) = true ∧
  visited (env r) = [] ∧
  sent (env r) = [refresh_request (Some "R") sample_config].
Proof.
  cbv zeta.
  set (w := world_of seconds_clock granting
              {[ "bobrefreshtoken.pickle"
                   := Pickle (Some "R") (Some (timedelta_seconds 172800)) ]}).
  assert (fs w !! normpath (dot_pickle_name sample_config) ≠ None) as Hdot by done.
  assert (¬ (timedelta_seconds 172800 - timedelta_days 1 < clock w (ticks w))%Z)
    as Hfresh by (vm_compute; discriminate).
  destruct (fresh_record_logs_in_without_the_browser sample_config w (Some "R")
              (timedelta_seconds 172800) "A" Hdot eq_refl Hfresh eq_refl eq_refl)
    as (Hr & Hl & _ & Hs & Hv & _).
  exact (conj Hr (conj Hl (conj Hv Hs))).
Defined.

(** The turn of the loop that the endpoint grants, for a manager that is
    not single-access. *)
Lemma granted_turn n at_ self w rtok atok :
  _is_single_access self = false →
  let rp := token_endpoint w (length (sent w)) (turn_request at_ self w) in
  status_code rp = 200%Z →
  json rp !! "refresh_token" = Some rtok →
  json rp !! "access_token" = Some atok →
  _get_access_token_loop (S n) at_ self w =
  MkRun (Return tt)
    (with_access atok (clock w (S (ticks w))) (with_refresh rtok (clock w (ticks w)) self))
    (tick (if _store_refresh_token self
           then dump_world (_td_config self) rtok (clock w (ticks w))
                  (turn_world at_ self w)
           else tick (turn_world at_ self w))).
Proof.
  intros Hsingle rp Hok Hrtok Hatok.
  rewrite get_access_token_loop_turn. cbv zeta. rewrite turn_reply. fold rp.
  rewrite bool_decide_eq_true_2 by done.
  destruct (turn_world_rest at_ self w) as (Hc & Ht & _).
  remember (turn_world at_ self w) as tw eqn:Htw. clear Htw.
  rewrite run_bind, Hsingle. cbn [negb].
  rewrite update_refresh_token_run, Hrtok. cbn [result obj env].
  rewrite update_access_token_run, Hatok, Hc, Ht.
  by destruct (_store_refresh_token self); simpl; rewrite Hc, Ht.
Qed.

(** X15: the first exchange granted.  For a manager that is not
    single-access, a 200 reply to the first exchange that carries both
    tokens ends the full authentication after that one request: the
    manager is logged in, it holds the two tokens, the refresh expiration
    is the first time read plus 7,776,000 seconds and the access
    expiration the next time read plus 1800 seconds; and the record of the
    user is written, with the refresh token and its expiration, exactly
    when persistence is enabled. *)
Theorem first_exchange_granted_logs_in self w rtok atok :
  _is_single_access self = false →
  let rq := turn_request (Some "offline") self w in
  let rp := token_endpoint w (length (sent w)) rq in
  status_code rp = 200%Z →
  json rp !! "refresh_token" = Some rtok →
  json rp !! "access_token" = Some atok →
  let r := _get_access_token max_retries_default self w in
  let rexp := (clock w (ticks w) + timedelta_seconds REFRESH_DURATION)%Z in
  result r = Return tt ∧
  logged_in_state (obj r) = true ∧
  _tokens (obj r)
    = {| access_token := Some atok;
         access_expiration
           := Some (clock w (S (ticks w)) + timedelta_seconds ACCESS_DURATION)%Z;
         refresh_token := Some rtok;
         refresh_expiration := Some rexp |} ∧
  sent (env r) = rq :: sent w ∧
  (_store_refresh_token self = true →
   fs (env r) = <[normpath (pickle_name (_td_config self))
                    := Pickle (Some rtok) (Some rexp)]> (fs w) ∧
   dumped (env r)
     = (normpath (pickle_name (_td_config self)), Pickle (Some rtok) (Some rexp))
       :: dumped w) ∧
  (_store_refresh_token self = false →
   fs (env r) = fs w ∧ dumped (env r) = dumped w).
Proof.
  intros Hsingle rq rp Hok Hrtok Hatok. cbv zeta.
  rewrite get_access_token_run, Hsingle. cbn [negb]. unfold max_retries_default.
  rewrite (granted_turn _ _ _ _ rtok atok) by done.
  destruct (turn_world_rest (Some "offline") self w) as (_ & _ & _ & Hf & Hd).
  pose proof (turn_world_sent (Some "offline") self w) as Hs. fold rq in Hs.
  remember (turn_world (Some "offline") self w) as tw eqn:Htw. clear Htw.
  cbn [result obj env].
  split; [done|]. split; [done|]. split; [done|]. split.
  { by destruct (_store_refresh_token self). }
  split; intros ->; simpl; by rewrite Hf, Hd.
Qed.

Lemma first_exchange_granted_logs_in_witness :
  let self := fresh sample_config true false in
  let w := world_of seconds_clock granting ∅ in
  let r := _get_access_token max_retries_default self w in
  result r = Return tt ∧
  logged_in_state (obj r) = true ∧
  fs (env r) !! "bobrefreshtoken.pickle"
    = Some (Pickle (Some "R") (Some (timedelta_seconds 7776000))).
Proof.
  cbv zeta.
  destruct (first_exchange_granted_logs_in (fresh sample_config true false)
              (world_of seconds_clock granting ∅) "R" "A"
              eq_refl eq_refl eq_refl eq_refl) as (Hr & Hl & _ & _ & Hstore & _).
  destruct (Hstore eq_refl) as [Hf _].
  split; [exact Hr|]. split; [exact Hl|].
  rewrite Hf. apply lookup_insert_eq.
Defined.

(** X16: a record within a day of its expiration is replaced.  The
    constructor that loads it does not post a refresh grant; when the
    endpoint grants the first exchange, the manager is logged in with the
    refresh token of the reply, and the record of the user now holds that
    token with its expiration, the time read at the grant plus 7,776,000
    seconds. *)
Theorem expiring_record_is_replaced td_config w rtok rexp rtok' atok :
  fs w !! normpath (dot_pickle_name td_config) ≠ None →
  fs w !! normpath (pickle_name td_config) = Some (Pickle rtok (Some rexp)) →
  (rexp - timedelta_days 1 < clock w (ticks w))%Z →
  (∀ rq, status_code (token_endpoint w (length (sent w)) rq) = 200%Z ∧
         json (token_endpoint w (length (sent w)) rq) !! "refresh_token" = Some rtok' ∧
         json (token_endpoint w (length (sent w)) rq) !! "access_token" = Some atok) →
  let r := __init__ td_config true false w in
  let rexp' := (clock w (S (ticks w)) + timedelta_seconds REFRESH_DURATION)%Z in
  result r = Return tt ∧
  logged_in_state (obj r) = true ∧
  refresh_token (_tokens (obj r)) = Some rtok' ∧
  refresh_expiration (_tokens (obj r)) = Some rexp' ∧
  fs (env r) !! normpath (pickle_name td_config) = Some (Pickle (Some rtok') (Some rexp')) ∧
  ∃ rq, sent (env r) = rq :: sent w ∧ is_code_grant rq.
Proof.
  intros Hdot Hfile Hexp Hgrant. cbv zeta.
  unfold __init__. rewrite run_bind.
  rewrite (initialize_loads_the_record _ rtok (Some rexp)) by done.
  rewrite refresh_access_token_run.
  cbn [refresh_expiration refresh_token _tokens _td_config set_tokens set_refresh fresh].
  rewrite bool_decide_eq_true_2 by done.
  rewrite get_access_token_run. unfold max_retries_default.
  set (loaded := set_tokens _ _).
  set (at_ := if negb _ then _ else _).
  destruct (Hgrant (turn_request at_ loaded (tick w))) as (Hok & Hrtok & Hatok).
  rewrite (granted_turn _ _ _ _ rtok' atok) by done.
  pose proof (turn_world_sent at_ loaded (tick w)) as Hs.
  remember (turn_world at_ loaded (tick w)) as tw eqn:Htw. clear Htw.
  cbn [result obj env]. rewrite run_bind. simpl.
  split; [done|]. split; [done|]. split; [done|]. split; [done|].
  split; [apply lookup_insert_eq|].
  eexists. split; [exact Hs|done].
Qed.

Lemma expiring_record_is_replaced_witness :
  let w := world_of seconds_clock granting
             {[ "bobrefreshtoken.pickle" := Pickle (Some "old") (Some 0%Z) ]} in
  let r := __init__ sample_config true false w in
  result r = Return tt ∧
  refresh_token (_tokens (obj r)) = Some "R" ∧
  fs (env r) !! normpath (pickle_name sample_config)
    = Some (Pickle (Some "R") (Some (timedelta_seconds 7776001))).
Proof.
  cbv zeta.
  set (w := world_of seconds_clock granting
              {[ "bobrefreshtoken.pickle" := Pickle (Some "old") (Some 0%Z) ]}).
  assert (fs w !! normpath (dot_pickle_name sample_config) ≠ None) as Hdot by done.
  assert (0 - timedelta_days 1 < clock w (ticks w))%Z as Hexp
    by (vm_compute; reflexivity).
  destruct (expiring_record_is_replaced sample_config w (Some "old") 0 "R" "A"
              Hdot eq_refl Hexp) as (Hr & _ & Htok & _ & Hf & _).
  { intros rq. by repeat split. }
  exact (conj Hr (conj Htok Hf)).
Defined.

(** ** Endpoints with leading slashes *)

(** What starts with a slash has no scheme. *)
Lemma split_scheme_slash endpoint :
  up.split_scheme (String "/" endpoint) = None.
Proof.
  unfold up.split_scheme.
  destruct (up.contains ":" (String "/" endpoint)); [|done].
  cbn [up.cut]. replace (up.eqc ":" "/") with false by reflexivity.
  destruct (up.cut ":" endpoint) as [a b].
  cbn [up.is_empty]. rewrite bool_decide_eq_false_2 by discriminate.
  cbn [up.all_chars]. by replace (up.scheme_char "/") with false by reflexivity.
Qed.

Lemma scheme_slash endpoint p :
  up.urlparse (String "/" endpoint) "" = Some p → up.scheme p = "".
Proof.
  unfold up.urlparse. rewrite split_scheme_slash.
  destruct (up.split_netloc _) as [nl u2].
  destruct (up.invalid_netloc nl); [done|].
  destruct (up.cut "#" u2) as [u3 frag].
  destruct (up.cut "?" u3) as [u4 qry].
  destruct (if up.mem "" up.uses_params && up.contains ";" u4
            then up.splitparams u4 else (u4, EmptyString)) as [pth prm].
  by intros [= <-].
Qed.

Lemma resolve_endpoint_slash endpoint :
  (∃ p, up.urlparse endpoint "" = Some p ∧ up.scheme p ∉ ["http"; "https"]) →
  is_Some (up.urlparse (String "/" endpoint) "") →
  resolve_endpoint (String "/" endpoint) = resolve_endpoint endpoint.
Proof.
  intros (p & Hp & Hscheme) [p' Hp']. unfold resolve_endpoint.
  rewrite Hp, Hp', (scheme_slash _ _ Hp'). unfold up.mem.
  rewrite (bool_decide_eq_false_2 (up.scheme p ∈ _)) by done.
  rewrite (bool_decide_eq_false_2 ("" ∈ _)); [done|].
  intros Hin. rewrite !elem_of_cons in Hin.
  destruct Hin as [|[|Hin]]; [discriminate..|]. by apply elem_of_nil in Hin.
Qed.

(** X17: a slash before a relative endpoint changes nothing:
    [headers("/" + endpoint)] is [headers(endpoint)], in its result and
    in what it does, for every endpoint that [urlparse] accepts, with a
    scheme that is not http or https, and accepts with the slash before
    it (so [/quotes] and [//quotes] resolve like [quotes]).  With the
    slash, [urlparse] may find a host where there was none, and refuse
    it: [headers("//[")] raises where [headers("/[")] returns. *)
Theorem leading_slash_is_dropped endpoint mode self w :
  (∃ p, up.urlparse endpoint "" = Some p ∧ up.scheme p ∉ ["http"; "https"]) →
  is_Some (up.urlparse (String "/" endpoint) "") →
  headers (String "/" endpoint) mode self w = headers endpoint mode self w.
Proof.
  intros Hparse Hslash. rewrite !headers_run_any.
  by rewrite (resolve_endpoint_slash endpoint Hparse Hslash).
Qed.

Lemma leading_slash_is_dropped_witness :
  let self := sample_manager false 1800 172800 in
  let w := world_of seconds_clock granting ∅ in
  headers "//quotes" None self w = headers "quotes" None self w ∧
  up.urlparse "//[" "" = None ∧
  result (headers "//[" None self w) = Raise ValueError ∧
  result (headers "/[" None self w)
    = Return (Some "https://api.tdameritrade.com/v1/[",
              Some {[ "Authorization" := "Bearer A" ]}).
Proof.
  cbv zeta.
  assert (∀ e p, up.urlparse e "" = Some p →
                 up.mem (up.scheme p) ["http"; "https"] = false →
                 ∃ p, up.urlparse e "" = Some p ∧ up.scheme p ∉ ["http"; "https"])
    as Hnot.
  { intros e p Hp He. exists p. split; [done|].
    unfold up.mem in He. by apply bool_decide_eq_false in He. }
  split; [|split; [|split]].
  - rewrite (leading_slash_is_dropped "/quotes");
      [|eapply Hnot; vm_compute; reflexivity|vm_compute; by eexists].
    apply (leading_slash_is_dropped "quotes");
      [eapply Hnot; vm_compute; reflexivity|vm_compute; by eexists].
  - vm_compute. reflexivity.
  - rewrite headers_run by reflexivity. vm_compute. reflexivity.
  - rewrite headers_run by reflexivity. vm_compute. reflexivity.
Defined.

(** ** Replies that lack a token *)

(** X18: for a manager that is not single-access, a 200 reply without a
    [refresh_token] makes the full authentication raise [KeyError] after
    that one exchange, even when the reply carries an access token: the
    object is as it was, the clock is not read and nothing is written. *)
Theorem reply_without_refresh_token_raises self w :
  _is_single_access self = false →
  let rq := turn_request (Some "offline") self w in
  let rp := token_endpoint w (length (sent w)) rq in
  status_code rp = 200%Z →
  json rp !! "refresh_token" = None →
  let r := _get_access_token max_retries_default self w in
  result r = Raise KeyError ∧
  obj r = self ∧
  sent (env r) = rq :: sent w ∧
  ticks (env r) = ticks w ∧
  fs (env r) = fs w ∧ dumped (env r) = dumped w.
Proof.
  intros Hsingle rq rp Hok Hkey. cbv zeta.
  rewrite get_access_token_run, Hsingle. cbn [negb]. unfold max_retries_default.
  rewrite get_access_token_loop_turn. cbv zeta. rewrite turn_reply. fold rq rp.
  rewrite bool_decide_eq_true_2 by done.
  destruct (turn_world_rest (Some "offline") self w) as (_ & Ht & _ & Hf & Hd).
  pose proof (turn_world_sent (Some "offline") self w) as Hs. fold rq in Hs.
  remember (turn_world (Some "offline") self w) as tw eqn:Htw. clear Htw.
  rewrite run_bind, Hsingle. cbn [negb].
  rewrite update_refresh_token_run, Hkey. by cbn [result obj env].
Qed.

Lemma reply_without_refresh_token_raises_witness :
  let self := fresh sample_config true false in
  let w := world_of seconds_clock (λ _ _, reply 200 [("access_token", "A")]) ∅ in
  let r := _get_access_token max_retries_default self w in
  result r = Raise KeyError ∧ obj r = self ∧ length (sent (env r)) = 1.
Proof.
  cbv zeta.
  destruct (reply_without_refresh_token_raises (fresh sample_config true false)
              (world_of seconds_clock (λ _ _, reply 200 [("access_token", "A")]) ∅)
              eq_refl eq_refl eq_refl) as (Hr & Ho & Hs & _).
  split; [exact Hr|]. split; [exact Ho|]. rewrite Hs. reflexivity.
Defined.

(** The access token found within five seconds of its expiration by a
    manager in normal mode whose refresh token is more than a day from
    its own: what the property does is decided by the reply to the
    refresh grant. *)
Lemma property_refreshes self w e re :
  _is_single_access self = false →
  access_expiration (_tokens self) = Some e →
  (e - timedelta_seconds 5 < clock w (ticks w))%Z →
  refresh_expiration (_tokens self) = Some re →
  ¬ (re - timedelta_days 1 < clock w (S (ticks w)))%Z →
  let rq := refresh_request (refresh_token (_tokens self)) (_td_config self) in
  status_code (token_endpoint w (length (sent w)) rq) = 200%Z →
  _authenticate self w =
  _update_access_token (json (token_endpoint w (length (sent w)) rq)) self
    (posted rq (tick (tick w))).
Proof.
  intros Hsingle He Hexp Hre Hfresh rq Hok.
  rewrite (authenticate_normal _ _ e) by done.
  rewrite bool_decide_eq_true_2 by done.
  rewrite refresh_access_token_run, Hre.
  cbn [clock ticks tick]. rewrite bool_decide_eq_false_2 by done. cbv zeta.
  change (reply_to (refresh_request (refresh_token (_tokens self)) (_td_config self))
            (tick (tick w)))
    with (token_endpoint w (length (sent w)) rq).
  by rewrite bool_decide_eq_true_2.
Qed.

(** X19: the access token is renewed on use, whatever the logged-in flag
    says.  For a manager in normal mode whose access token is within five
    seconds of its expiration or past it and whose refresh token is more
    than a day from its own, a 200 reply to the refresh grant that carries
    an access token makes the [access_token] property return that token:
    the manager is logged in again, after the one request, with the
    expiration set to the third time read plus 1800 seconds. *)
Theorem expired_token_is_refreshed_on_use self w e re atok :
  _is_single_access self = false →
  access_expiration (_tokens self) = Some e →
  (e - timedelta_seconds 5 < clock w (ticks w))%Z →
  refresh_expiration (_tokens self) = Some re →
  ¬ (re - timedelta_days 1 < clock w (S (ticks w)))%Z →
  let rq := refresh_request (refresh_token (_tokens self)) (_td_config self) in
  let rp := token_endpoint w (length (sent w)) rq in
  status_code rp = 200%Z →
  json rp !! "access_token" = Some atok →
  let r := access_token_property self w in
  result r = Return (Token (Some atok)) ∧
  logged_in_state (obj r) = true ∧
  access_expiration (_tokens (obj r))
    = Some (clock w (S (S (ticks w))) + timedelta_seconds ACCESS_DURATION)%Z ∧
  sent (env r) = rq :: sent w.
Proof.
  intros Hsingle He Hexp Hre Hfresh rq rp Hok Hatok. cbv zeta.
  rewrite access_token_property_run. cbv zeta.
  rewrite (property_refreshes self w e re) by done.
  fold rq rp. by rewrite update_access_token_run, Hatok.
Qed.

Lemma expired_token_is_refreshed_on_use_witness :
  let self := set_logged_in_state false (sample_manager false 4 172800) in
  let w := world_of seconds_clock granting ∅ in
  let r := access_token_property self w in
  logged_in_state self = false ∧
  result r = Return (Token (Some "A")) ∧
  logged_in_state (obj r) = true.
Proof.
  cbv zeta.
  set (self := set_logged_in_state false (sample_manager false 4 172800)).
  set (w := world_of seconds_clock granting ∅).
  assert (timedelta_seconds 4 - timedelta_seconds 5 < clock w (ticks w))%Z as Hexp
    by (vm_compute; reflexivity).
  assert (¬ (timedelta_seconds 172800 - timedelta_days 1 < clock w (S (ticks w)))%Z)
    as Hfresh by (vm_compute; discriminate).
  destruct (expired_token_is_refreshed_on_use self w (timedelta_seconds 4)
              (timedelta_seconds 172800) "A" eq_refl eq_refl Hexp eq_refl Hfresh
              eq_refl eq_refl) as (Hr & Hl & _).
  split; [reflexivity|]. exact (conj Hr Hl).
Defined.

(** X20: a 200 reply to the refresh grant that carries no access token
    makes the [access_token] property raise [KeyError]: the object is as
    it was, with its logged-in flag and its old token, and the one
    request was posted. *)
Theorem refresh_reply_without_access_token_raises self w e re :
  _is_single_access self = false →
  access_expiration (_tokens self) = Some e →
  (e - timedelta_seconds 5 < clock w (ticks w))%Z →
  refresh_expiration (_tokens self) = Some re →
  ¬ (re - timedelta_days 1 < clock w (S (ticks w)))%Z →
  let rq := refresh_request (refresh_token (_tokens self)) (_td_config self) in
  let rp := token_endpoint w (length (sent w)) rq in
  status_code rp = 200%Z →
  json rp !! "access_token" = None →
  let r := access_token_property self w in
  result r = Raise KeyError ∧ obj r = self ∧ sent (env r) = rq :: sent w.
Proof.
  intros Hsingle He Hexp Hre Hfresh rq rp Hok Hatok. cbv zeta.
  rewrite access_token_property_run. cbv zeta.
  rewrite (property_refreshes self w e re) by done.
  fold rq rp. by rewrite update_access_token_run, Hatok.
Qed.

Lemma refresh_reply_without_access_token_raises_witness :
  let self := sample_manager false 4 172800 in
  let w := world_of seconds_clock (λ _ _, reply 200 []) ∅ in
  let r := access_token_property self w in
  result r = Raise KeyError ∧ logged_in_state (obj r) = true.
Proof.
  cbv zeta.
  set (self := sample_manager false 4 172800).
  set (w := world_of seconds_clock (λ _ _, reply 200 []) ∅).
  assert (timedelta_seconds 4 - timedelta_seconds 5 < clock w (ticks w))%Z as Hexp
    by (vm_compute; reflexivity).
  assert (¬ (timedelta_seconds 172800 - timedelta_days 1 < clock w (S (ticks w)))%Z)
    as Hfresh by (vm_compute; discriminate).
  destruct (refresh_reply_without_access_token_raises self w (timedelta_seconds 4)
              (timedelta_seconds 172800) eq_refl eq_refl Hexp eq_refl Hfresh
              eq_refl eq_refl) as (Hr & Ho & _).
  split; [exact Hr|]. rewrite Ho. reflexivity.
Defined.
